(** * prh language server: the [Handler] class

    A shallow embedding of the [Handler] class of the prh language
    server (the multi-path variant, with [configFiles], [engineCache]
    and [validationCache]) and the properties of its validation cache
    and command dispatch, followed by the validation side of the earlier
    single-file variant of the class (module [Legacy]).

    The prh library ([fromYAMLFilePaths], [getRuleFilePath], [Engine]),
    node's [fs], [vscode-uri] and the [vscode-languageserver] objects
    ([TextDocument], [IConnection]) are outside the repository.  They are
    taken as parameters: functions of the section for the module-level
    ones, method fields for the objects, and a trace of [Event]s for
    everything the handler sends to the connection. *)

From Stdlib Require Import ZArith String Ascii List Bool Lia.
From stdpp Require Import base option list sorting strings gmap.

Local Open Scope string_scope.
Local Open Scope Z_scope.
Local Open Scope list_scope.

(** ** JavaScript values used by the handler *)

(** [x || dflt] on a possibly missing string: [undefined], [null] and the
    empty string are all falsy. *)
Definition or_else (x : option string) (dflt : string) : string :=
  match x with
  | Some s => if bool_decide (s = "") then dflt else s
  | None => dflt
  end.

(** Truthiness of a possibly missing string ([if (x)], [!x]). *)
Definition truthy (x : option string) : bool :=
  match x with
  | Some s => negb (bool_decide (s = ""))
  | None => false
  end.

(** [s.split("|")]: always at least one piece. *)
Fixpoint split_bar (s : string) : list string :=
  match s with
  | EmptyString => [""]
  | String c rest =>
      if bool_decide (c = "|"%char) then "" :: split_bar rest
      else match split_bar rest with
           | piece :: pieces => String c piece :: pieces
           | [] => [String c ""]
           end
  end.

(** [s.endsWith(suffix)]. *)
Definition endsWith (s suffix : string) : bool :=
  let n := String.length s in
  let m := String.length suffix in
  (m <=? n)%nat && bool_decide (substring (n - m) m s = suffix).

(** ** Protocol and library data *)

Module Position.
Record t := mk { line : Z; character : Z }.
End Position.

Module Range.
Record t := mk { start : Position.t; end_ : Position.t }.
End Range.

Module TextEdit.
Record t := mk { range : Range.t; newText : string }.
End TextEdit.

(** prh's [Rule], as far as the handler reads it: [rule.raw.prh]. *)
Module RawRule.
Record t := mk { prh : option string }.
End RawRule.

Module Rule.
Record t := mk { raw : option RawRule.t }.
End Rule.

(** prh's [Diff]: a flagged span [index, tailIndex) with an optional
    replacement and the rule it comes from. *)
Module Diff.
Record t := mk {
  index : Z;
  tailIndex : Z;
  newText : option string;
  rule : option Rule.t }.
End Diff.

Module ChangeSet.
Record t := mk { diffs : list Diff.t }.
End ChangeSet.

(** prh's [Engine]: an object with a [makeChangeSet(filePath, content)]
    method; the handler tests its result for null. *)
Module Engine.
Record t := mk { makeChangeSet : string -> string -> option ChangeSet.t }.
End Engine.

(** A [TextDocument] of the language-server library: identity, version,
    text and the document's own offset/position conversions. *)
Module TextDocument.
Record t := mk {
  uri : string;
  version : Z;
  getText : string;
  positionAt : Z -> Position.t;
  offsetAt : Position.t -> Z }.
End TextDocument.

Module Uri.
Record t := mk { scheme : string; path : string }.
End Uri.

Inductive DiagnosticSeverity := Error | Warning | Information | Hint.

Module Diagnostic.
Record t := mk {
  severity : DiagnosticSeverity;
  range : Range.t;
  message : string;
  source : string }.
End Diagnostic.

Module ReplaceCommandParams.
Record t := mk { uri : string; version : Z; textEdit : TextEdit.t }.
End ReplaceCommandParams.

Module Command.
Record t := mk {
  title : string;
  command : string;
  arguments : list ReplaceCommandParams.t }.
End Command.

Module ChangeSetCache.
Record t := mk { version : Z; changeSet : ChangeSet.t }.
End ChangeSetCache.

(** [WorkspaceEdit] with [documentChanges] only, as the handler builds it. *)
Module TextDocumentEdit.
Record t := mk { uri : string; version : Z; edits : list TextEdit.t }.
End TextDocumentEdit.

Module WorkspaceEdit.
Record t := mk { documentChanges : list TextDocumentEdit.t }.
End WorkspaceEdit.

(** [settings.prh]: both fields are optional. *)
Module PrhSettings.
Record t := mk { enable : option bool; configFiles : option (list string) }.
End PrhSettings.

Module DidChangeWatchedFilesParams.
Record t := mk { changes : list string (* the [uri] of each file event *) }.
End DidChangeWatchedFilesParams.

Module CodeActionParams.
Record t := mk { textDocument_uri : string; range : Range.t }.
End CodeActionParams.

(** An element of [ExecuteCommandParams.arguments] ([any] in the
    protocol): the object sent with "replace", or the document uri sent
    with "applyAllQuickFixes". *)
Inductive Argument :=
| arg_params (p : ReplaceCommandParams.t)
| arg_string (s : string).

Module ExecuteCommandParams.
Record t := mk { command : string; arguments : option (list Argument) }.
End ExecuteCommandParams.

Module InitializeParams.
Record t := mk { rootUri : option string; rootPath : option string }.
End InitializeParams.

Inductive TextDocumentSyncKind := SyncNone | SyncFull | SyncIncremental.

Module ExecuteCommandOptions.
Record t := mk { commands : list string }.
End ExecuteCommandOptions.

(** The capabilities the server answers [initialize] with; a field the
    source sets to [void 0] is [None]. *)
Module ServerCapabilities.
Record t := mk {
  textDocumentSync : TextDocumentSyncKind;
  hoverProvider : bool;
  completionProvider : option unit;
  signatureHelpProvider : option unit;
  definitionProvider : bool;
  referencesProvider : bool;
  documentHighlightProvider : bool;
  documentSymbolProvider : bool;
  workspaceSymbolProvider : bool;
  codeActionProvider : bool;
  codeLensProvider : option unit;
  documentFormattingProvider : bool;
  documentRangeFormattingProvider : bool;
  documentOnTypeFormattingProvider : option unit;
  renameProvider : bool;
  documentLinkProvider : option unit;
  executeCommandProvider : ExecuteCommandOptions.t;
  experimental : bool }.
End ServerCapabilities.

Module InitializeResult.
Record t := mk { capabilities : ServerCapabilities.t }.
End InitializeResult.

(** A thrown JavaScript value: an [Error] instance with its message
    (what [e instanceof Error] recognises), or anything else. *)
Inductive Thrown :=
| an_Error (message : string)
| not_an_Error.

(** What a call of [fromYAMLFilePaths] does: returns an engine or throws. *)
Inductive Construction :=
| built (engine : Engine.t)
| threw (e : Thrown).

(** [const enum State]. *)
Inductive State := valid | invalid.

#[export] Instance State_eq_dec : EqDecision State.
Proof. solve_decision. Defined.

(** ** What the handler sends out *)

(** The text of each [console.log] call, kept structured: the template
    of the call site with the values it interpolates. *)
Inductive LogMessage :=
| log_onDidChangeConfiguration (settings : PrhSettings.t)
| log_onDidChangeWatchedFiles (change : DidChangeWatchedFilesParams.t)
| log_matched (uri_path rulePath : string)
| log_loadConfig (shown : string)
| log_rule_file_not_exists (configPath : string)
| log_rule_file_not_found_for (uri : string)
| log_rule_file_found (foundPath : string)
| log_diff (diff : Diff.t)
| log_commandParams (p : ReplaceCommandParams.t)
| log_json_string (s : string)
| log_version_mismatch (expected : option Z) (actual : Z)
| log_unknown_command (command : string).

(** Calls on the connection, in order, and (as [call_] events) the calls
    into the prh library, which is how an invocation counter sees the
    handler. *)
Inductive Event :=
| console_log (m : LogMessage)
| console_error (e : Thrown)
| showWarningMessage (message : string)
| showErrorMessage (message : string)
| sendDiagnostics (uri : string) (diagnostics : list Diagnostic.t)
| applyEdit (edit : WorkspaceEdit.t)
| call_fromYAMLFilePaths (configPaths : list string)
| call_Engine_makeChangeSet (uri content : string).

(** ** The handler's fields *)

(** The two caches are JavaScript objects used as maps from strings; their
    keys are taken not to name a property of [Object.prototype]. *)
Record Handler := mkHandler {
  enable : bool;
  configPaths : option (list string);
  state : State;
  (** A key may hold [undefined] (here [None]): see [makeChangeSet]. *)
  engineCache : gmap string (option Engine.t);
  validationCache : gmap string ChangeSetCache.t;
  (** [this.documents]: the open documents, as [all()] lists them. *)
  documents : list TextDocument.t }.

(** The handler as the constructor leaves it: [enable] and [configPaths]
    are not assigned (both falsy), [state] is valid, the caches empty. *)
Definition new_Handler (docs : list TextDocument.t) : Handler :=
  {| enable := false; configPaths := None; state := valid;
     engineCache := ∅; validationCache := ∅; documents := docs |}.

Definition set_enable (b : bool) (h : Handler) : Handler :=
  mkHandler b (configPaths h) (state h) (engineCache h) (validationCache h) (documents h).
Definition set_configPaths (p : option (list string)) (h : Handler) : Handler :=
  mkHandler (enable h) p (state h) (engineCache h) (validationCache h) (documents h).
Definition set_state (s : State) (h : Handler) : Handler :=
  mkHandler (enable h) (configPaths h) s (engineCache h) (validationCache h) (documents h).
Definition set_engineCache (c : gmap string (option Engine.t)) (h : Handler) : Handler :=
  mkHandler (enable h) (configPaths h) (state h) c (validationCache h) (documents h).
Definition set_validationCache (c : gmap string ChangeSetCache.t) (h : Handler) : Handler :=
  mkHandler (enable h) (configPaths h) (state h) (engineCache h) c (documents h).

(** [this.documents.get(uri)]: [undefined] for a document that is not open. *)
Definition documents_get (h : Handler) (uri : string) : option TextDocument.t :=
  find (fun d => bool_decide (TextDocument.uri d = uri)) (documents h).

(** ** Method bodies as computations

    A method body runs on the handler's fields, appends to the trace and
    completes like a JavaScript statement list: normally, by [return], or
    by throwing.  State changes and events made before a [return] or a
    throw stay. *)

Inductive Completion (R A : Type) :=
| normal (a : A)
| returned (r : R)
| thrown (e : Thrown).
Arguments normal {R A} a.
Arguments returned {R A} r.
Arguments thrown {R A} e.

Definition Body (R A : Type) : Type :=
  Handler -> Completion R A * Handler * list Event.

Definition pure {R A} (a : A) : Body R A := fun h => (normal a, h, []).

Definition bind {R A B} (m : Body R A) (k : A -> Body R B) : Body R B :=
  fun h =>
    match m h with
    | (normal a, h1, t1) =>
        match k a h1 with (c, h2, t2) => (c, h2, t1 ++ t2) end
    | (returned r, h1, t1) => (returned r, h1, t1)
    | (thrown e, h1, t1) => (thrown e, h1, t1)
    end.

Notation "'let!' x ':=' m 'in' k" := (bind m (fun x => k))
  (at level 10, x name, m at level 100, k at level 200).
Notation "m ';;;' k" := (bind m (fun _ => k))
  (at level 100, k at level 200, right associativity).

Definition this {R} : Body R Handler := fun h => (normal h, h, []).
Definition assign {R} (f : Handler -> Handler) : Body R unit :=
  fun h => (normal tt, f h, []).
Definition emit {R} (e : Event) : Body R unit := fun h => (normal tt, h, [e]).
Definition return_ {R A} (r : R) : Body R A := fun h => (returned r, h, []).
Definition throw {R A} (e : Thrown) : Body R A := fun h => (thrown e, h, []).

(** Calling a method: its [return] value (or falling off the end, with
    [dflt]) is the call's value; a throw goes on to the caller. *)
Definition call {R R'} (dflt : R) (body : Body R unit) : Body R' R :=
  fun h =>
    match body h with
    | (normal _, h1, t1) => (normal dflt, h1, t1)
    | (returned r, h1, t1) => (normal r, h1, t1)
    | (thrown e, h1, t1) => (thrown e, h1, t1)
    end.

(** [try { body } catch (e) { handler }]. *)
Definition try_catch {R A} (body : Body R A) (handler : Thrown -> Body R A)
  : Body R A :=
  fun h =>
    match body h with
    | (thrown e, h1, t1) =>
        match handler e h1 with (c, h2, t2) => (c, h2, t1 ++ t2) end
    | other => other
    end.

(** [for (let x of xs) { body }]; also [xs.forEach(x => ...)] when the
    callback is a method call. *)
Fixpoint for_of {R A} (xs : list A) (body : A -> Body R unit) : Body R unit :=
  match xs with
  | [] => pure tt
  | x :: rest => body x ;;; for_of rest body
  end.

(** [xs.some(x => ...)]: stops at the first element the callback accepts. *)
Fixpoint some {R A} (xs : list A) (callback : A -> Body R bool) : Body R bool :=
  match xs with
  | [] => pure false
  | x :: rest =>
      let! b := callback x in
      if b : bool then pure true else some rest callback
  end.

(** [xs.map(x => ...)] with a callback that logs. *)
Fixpoint map_ {R A B} (xs : list A) (callback : A -> Body R B) : Body R (list B) :=
  match xs with
  | [] => pure []
  | x :: rest =>
      let! y := callback x in
      let! ys := map_ rest callback in
      pure (y :: ys)
  end.

(** Reading a property of a value that may be [undefined]. *)
Definition deref {R A} (what : string) (x : option A) : Body R A :=
  match x with
  | Some a => pure a
  | None => throw (an_Error ("TypeError: Cannot read property of undefined: " +:+ what))
  end.

(** A handler method run from the event loop: it yields a value or an
    uncaught exception, the handler's new fields and the trace. *)
Inductive Outcome (A : Type) :=
| value (a : A)
| exception (e : Thrown).
Arguments value {A} a.
Arguments exception {A} e.

Definition run {A} (m : Body Empty_set A) (h : Handler)
  : Outcome A * Handler * list Event :=
  match m h with
  | (normal a, h1, t) => (value a, h1, t)
  | (returned r, _, _) => match r with end
  | (thrown e, h1, t) => (exception e, h1, t)
  end.

(** ** An earlier version of the class ([lib/index.ts])

    One rule file ([configPath]) and one engine, loaded whenever the
    configuration changes; the workspace root is kept to recognise the
    rule file among the watched files.  The validation side of the class
    is embedded: initialisation, configuration, watched files, loading
    and validation. *)
Module Legacy.

Declare Scope legacy_scope.
Local Open Scope legacy_scope.

Module PrhSettings.
Record t := mk { enable : option bool; configFile : option string }.
End PrhSettings.

(** A correction, with the fields the validation side reads. *)
Module Diff.
Record t := mk {
  index : Z;
  tailIndex : Z;
  expected : option string;
  rule : option Rule.t }.
End Diff.

Module ChangeSet.
Record t := mk { diffs : list Diff.t }.
End ChangeSet.

Module Engine.
Record t := mk { makeChangeSet : string -> string -> option ChangeSet.t }.
End Engine.

Module ChangeSetCache.
Record t := mk { version : Z; changeSet : ChangeSet.t }.
End ChangeSetCache.

(** How a call of [fromYAMLFilePath] ends. *)
Inductive Construction :=
| built (engine : Engine.t)
| threw (e : Thrown).

(** How a call of [path.resolve] ends. *)
Inductive Resolution :=
| resolved (path : string)
| failed (e : Thrown).

Inductive LogMessage :=
| log_onDidChangeConfiguration (settings : PrhSettings.t)
| log_loadConfig (configPath : option string).

Inductive Event :=
| console_log (m : LogMessage)
| sendDiagnostics (uri : string) (diagnostics : list Diagnostic.t)
| call_fromYAMLFilePath (configPath : option string)
| call_Engine_makeChangeSet (uri content : string).

(** The fields.  [engine], [configPath] and [workspaceRoot] are not
    assigned by the constructor; an entry of the cache may be [null]. *)
Record Handler := mkHandler {
  engine : option Engine.t;
  enable : bool;
  configPath : option string;
  workspaceRoot : option string;
  validationCache : gmap string (option ChangeSetCache.t);
  documents : list TextDocument.t }.

Definition new_Handler (docs : list TextDocument.t) : Handler :=
  {| engine := None; enable := false; configPath := None; workspaceRoot := None;
     validationCache := ∅; documents := docs |}.

Definition set_engine (e : option Engine.t) (h : Handler) : Handler :=
  mkHandler e (enable h) (configPath h) (workspaceRoot h) (validationCache h)
    (documents h).
Definition set_enable (b : bool) (h : Handler) : Handler :=
  mkHandler (engine h) b (configPath h) (workspaceRoot h) (validationCache h)
    (documents h).
Definition set_configPath (p : option string) (h : Handler) : Handler :=
  mkHandler (engine h) (enable h) p (workspaceRoot h) (validationCache h)
    (documents h).
Definition set_workspaceRoot (r : option string) (h : Handler) : Handler :=
  mkHandler (engine h) (enable h) (configPath h) r (validationCache h)
    (documents h).
Definition set_validationCache (c : gmap string (option ChangeSetCache.t))
    (h : Handler) : Handler :=
  mkHandler (engine h) (enable h) (configPath h) (workspaceRoot h) c (documents h).

(** Method bodies, as above, on these fields and events. *)
Definition Body (R A : Type) : Type :=
  Handler -> Completion R A * Handler * list Event.

Definition pure {R A} (a : A) : Body R A := fun h => (normal a, h, []).

Definition bind {R A B} (m : Body R A) (k : A -> Body R B) : Body R B :=
  fun h =>
    match m h with
    | (normal a, h1, t1) =>
        match k a h1 with (c, h2, t2) => (c, h2, t1 ++ t2) end
    | (returned r, h1, t1) => (returned r, h1, t1)
    | (thrown e, h1, t1) => (thrown e, h1, t1)
    end.

Local Notation "'let!' x ':=' m 'in' k" := (bind m (fun x => k))
  (at level 10, x name, m at level 100, k at level 200) : legacy_scope.
Local Notation "m ';;;' k" := (bind m (fun _ => k))
  (at level 100, k at level 200, right associativity) : legacy_scope.

Definition this {R} : Body R Handler := fun h => (normal h, h, []).
Definition assign {R} (f : Handler -> Handler) : Body R unit :=
  fun h => (normal tt, f h, []).
Definition emit {R} (e : Event) : Body R unit := fun h => (normal tt, h, [e]).
Definition return_ {R A} (r : R) : Body R A := fun h => (returned r, h, []).
Definition throw {R A} (e : Thrown) : Body R A := fun h => (thrown e, h, []).

Definition call {R R'} (dflt : R) (body : Body R unit) : Body R' R :=
  fun h =>
    match body h with
    | (normal _, h1, t1) => (normal dflt, h1, t1)
    | (returned r, h1, t1) => (normal r, h1, t1)
    | (thrown e, h1, t1) => (thrown e, h1, t1)
    end.

Fixpoint for_of {R A} (xs : list A) (body : A -> Body R unit) : Body R unit :=
  match xs with
  | [] => pure tt
  | x :: rest => body x ;;; for_of rest body
  end.

Definition deref {R A} (what : string) (x : option A) : Body R A :=
  match x with
  | Some a => pure a
  | None => throw (an_Error ("TypeError: Cannot read property of undefined: " +:+ what))
  end.

Definition run {A} (m : Body Empty_set A) (h : Handler)
  : Outcome A * Handler * list Event :=
  match m h with
  | (normal a, h1, t) => (value a, h1, t)
  | (returned r, _, _) => match r with end
  | (thrown e, h1, t) => (exception e, h1, t)
  end.

(** An array is an object, and every object is truthy. *)
Definition array_truthy {A} (xs : list A) : bool := true.

(** What the class imports: prh's [fromYAMLFilePath], [path.resolve],
    [Uri.parse] and [toString] of vscode-uri, and the document manager's
    [syncKind].  [configPath] is passed on as it is, assigned or not.
    Calls of [Uri.parse], [with] and [toString] are taken to return. *)
Class Library := {
  fromYAMLFilePath : option string -> Construction;
  path_resolve : string -> option string -> Resolution;
  Uri_parse : string -> Uri.t;
  Uri_toString : Uri.t -> string;
  syncKind : TextDocumentSyncKind }.

Section Methods.

Context `{Library}.

Definition onInitialized {R} (params : InitializeParams.t)
  : Body R InitializeResult.t :=
  assign (set_workspaceRoot
            (if truthy (InitializeParams.rootUri params)
             then InitializeParams.rootUri params
             else InitializeParams.rootPath params)) ;;;
  pure (InitializeResult.mk {|
    ServerCapabilities.textDocumentSync := syncKind;
    ServerCapabilities.hoverProvider := false;
    ServerCapabilities.completionProvider := None;
    ServerCapabilities.signatureHelpProvider := None;
    ServerCapabilities.definitionProvider := false;
    ServerCapabilities.referencesProvider := false;
    ServerCapabilities.documentHighlightProvider := false;
    ServerCapabilities.documentSymbolProvider := false;
    ServerCapabilities.workspaceSymbolProvider := false;
    ServerCapabilities.codeActionProvider := true;
    ServerCapabilities.codeLensProvider := None;
    ServerCapabilities.documentFormattingProvider := false;
    ServerCapabilities.documentRangeFormattingProvider := false;
    ServerCapabilities.documentOnTypeFormattingProvider := None;
    ServerCapabilities.renameProvider := false;
    ServerCapabilities.documentLinkProvider := None;
    ServerCapabilities.executeCommandProvider :=
      ExecuteCommandOptions.mk ["replace"];
    ServerCapabilities.experimental := false |}).

(** [textDocument] may be [undefined] when it comes from
    [this.documents.get]. *)
Definition documentValidate {R} (textDocument : option TextDocument.t)
  : Body R (option ChangeSet.t) :=
  call None (
    let! h := this in
    match engine h with
    | None => return_ None
    | Some engine =>
        if negb (enable h) then return_ None
        else
          let! d := deref "uri" textDocument in
          (match mjoin (validationCache h !! TextDocument.uri d) with
           | Some cached =>
               if bool_decide (ChangeSetCache.version cached = TextDocument.version d)
               then return_ (Some (ChangeSetCache.changeSet cached))
               else pure tt
           | None => pure tt
           end) ;;;
          assign (fun h =>
            set_validationCache
              (<[TextDocument.uri d := None]> (validationCache h)) h) ;;;
          emit (call_Engine_makeChangeSet
                  (TextDocument.uri d) (TextDocument.getText d)) ;;;
          match Engine.makeChangeSet engine
                  (TextDocument.uri d) (TextDocument.getText d) with
          | None => return_ None
          | Some changeSet =>
              assign (fun h =>
                set_validationCache
                  (<[TextDocument.uri d :=
                       Some (ChangeSetCache.mk (TextDocument.version d) changeSet)]>
                     (validationCache h)) h) ;;;
              return_ (Some changeSet)
          end
    end).

(** The diagnostic of one correction: the callback of
    [changeSet.diffs.map] in [sendValidationDiagnostics]. *)
Definition diagnostic (textDocument : TextDocument.t) (diff : Diff.t)
  : Diagnostic.t :=
  let start := TextDocument.positionAt textDocument (Diff.index diff) in
  let end_ := TextDocument.positionAt textDocument (Diff.tailIndex diff) in
  let prh := (* diff.rule && diff.rule.raw && diff.rule.raw.prh *)
    match Diff.rule diff with
    | Some rule =>
        match Rule.raw rule with
        | Some raw => RawRule.prh raw
        | None => None
        end
    | None => None
    end in
  let message :=
    if truthy prh
    then "→" +:+ or_else (Diff.expected diff) "??" +:+ " " +:+ default "" prh
    else "→" +:+ or_else (Diff.expected diff) "??" in
  Diagnostic.mk Warning (Range.mk start end_) message "prh".

Definition sendValidationDiagnostics {R} (textDocument : TextDocument.t)
  : Body R unit :=
  call tt (
    let! changeSet := documentValidate (Some textDocument) in
    match changeSet with
    | None => return_ tt
    | Some changeSet =>
        let diagnostics := map (diagnostic textDocument) (ChangeSet.diffs changeSet) in
        emit (sendDiagnostics (TextDocument.uri textDocument) diagnostics)
    end).

Definition loadConfig {R} : Body R unit :=
  call tt (
    let! h := this in
    emit (console_log (log_loadConfig (configPath h))) ;;;
    assign (set_validationCache ∅) ;;;
    emit (call_fromYAMLFilePath (configPath h)) ;;;
    (match fromYAMLFilePath (configPath h) with
     | built engine => assign (set_engine (Some engine))
     | threw e => throw e
     end) ;;;
    let! h := this in
    for_of (documents h) sendValidationDiagnostics).

Definition onDidChangeConfiguration {R} (settings : PrhSettings.t) : Body R unit :=
  call tt (
    emit (console_log (log_onDidChangeConfiguration settings)) ;;;
    assign (set_enable (default false (PrhSettings.enable settings))) ;;;
    assign (set_configPath
              (Some (or_else (PrhSettings.configFile settings) "prh.yml"))) ;;;
    loadConfig).

Definition onDidChangeContent {R} (document : TextDocument.t) : Body R unit :=
  call tt (sendValidationDiagnostics document).

Definition onDidChangeWatchedFiles {R} (change : DidChangeWatchedFilesParams.t)
  : Body R unit :=
  call tt (
    let! h := this in
    match workspaceRoot h with
    | None => return_ tt
    | Some root =>
        let configUri := Uri_parse root in
        let! path :=
          match path_resolve (Uri.path configUri) (configPath h) with
          | resolved path => pure path
          | failed e => throw e
          end in
        let configUri := Uri.mk (Uri.scheme configUri) path in
        let configChanged :=
          List.filter (fun change_uri =>
                         bool_decide (change_uri = Uri_toString configUri))
            (DidChangeWatchedFilesParams.changes change) in
        if array_truthy configChanged then loadConfig else pure tt
    end).

End Methods.

(** *** Vocabulary of the statements *)

Definition completion {R A} (o : Outcome A * Handler * list Event)
  : Completion R A * Handler * list Event :=
  match o with
  | (value a, h, t) => (normal a, h, t)
  | (exception e, h, t) => (thrown e, h, t)
  end.

(** The diagnostics a trace publishes, per document. *)
Definition published (t : list Event) : list (string * list Diagnostic.t) :=
  omap (λ e, match e with
             | sendDiagnostics uri diagnostics => Some (uri, diagnostics)
             | _ => None
             end) t.

(** The calls of [engine.makeChangeSet] in a trace. *)
Definition invocations (t : list Event) : list (string * string) :=
  omap (λ e, match e with
             | call_Engine_makeChangeSet uri content => Some (uri, content)
             | _ => None
             end) t.

(** A run continued after the trace [t]. *)
Definition after {A} (t : list Event) (o : Outcome A * Handler * list Event)
  : Outcome A * Handler * list Event :=
  match o with (c, h, t') => (c, h, t ++ t') end.

(** What validating a document with an engine publishes; nothing when
    the engine returns null. *)
Definition report (engine : Engine.t) (d : TextDocument.t)
  : option (string * list Diagnostic.t) :=
  (λ changeSet,
     (TextDocument.uri d, map (diagnostic d) (ChangeSet.diffs changeSet)))
  <$> Engine.makeChangeSet engine (TextDocument.uri d) (TextDocument.getText d).

End Legacy.

(** ** A small world to run the handler in

    One rule file whose engine flags the two spellings in the text of
    [document] (the second without a suggestion), one that flags
    nothing, one that does not parse, one whose loading throws a value
    that is not an [Error]; a file document and an untitled one. *)
Module Fixture.

Definition flagged : ChangeSet.t :=
  ChangeSet.mk [Diff.mk 4 14 (Some "JavaScript") None; Diff.mk 20 30 None None].

Definition engine : Engine.t := Engine.mk (fun _ _ => Some flagged).

Definition silent_engine : Engine.t := Engine.mk (fun _ _ => None).

Definition existsSync (path : string) : bool :=
  bool_decide (path = "prh.yml") || bool_decide (path = "quiet.yml")
  || bool_decide (path = "broken.yml").

Definition getRuleFilePath (path : string) : option string :=
  if bool_decide (path = "/work/a.md") then Some "/work/prh.yml" else None.

Definition fromYAMLFilePaths (configPaths : list string) : Construction :=
  if bool_decide (configPaths = ["prh.yml"]) then built engine
  else if bool_decide (configPaths = ["/work/prh.yml"]) then built engine
  else if bool_decide (configPaths = ["quiet.yml"]) then built silent_engine
  else if bool_decide (configPaths = ["broken.yml"])
       then threw (an_Error "bad indentation of a mapping entry")
  else if bool_decide (configPaths = ["odd.yml"]) then threw not_an_Error
  else threw (an_Error "ENOENT: no such file or directory").

Definition Uri_parse (uri : string) : Uri.t :=
  if String.prefix "file://" uri
  then Uri.mk "file" (substring 7 (String.length uri - 7) uri)
  else Uri.mk "untitled" uri.

(** Single-line documents: an offset is a character of line 0. *)
Definition document : TextDocument.t :=
  TextDocument.mk "file:///work/a.md" 1 "Use javascript, not Javascript."
    (fun offset => Position.mk 0 offset) Position.character.

Definition scratch : TextDocument.t :=
  TextDocument.mk "untitled:Untitled-1" 4 "notes"
    (fun offset => Position.mk 0 offset) Position.character.

(** An enabled handler with the given [configFiles], caches empty. *)
Definition configured (paths : list string) : Handler :=
  mkHandler true (Some paths) valid ∅ ∅ [document; scratch].

(** [document] after an edit. *)
Definition revised : TextDocument.t :=
  TextDocument.mk "file:///work/a.md" 2 "Use JavaScript."
    (fun offset => Position.mk 0 offset) Position.character.

End Fixture.

(** The same for the earlier version: one rule file that loads, with an
    engine that flags the file document only. *)
Module LegacyFixture.

Definition flagged : Legacy.ChangeSet.t :=
  Legacy.ChangeSet.mk [Legacy.Diff.mk 4 14 (Some "JavaScript") None].

Definition engine : Legacy.Engine.t :=
  Legacy.Engine.mk (fun uri _ =>
    if bool_decide (uri = "file:///work/a.md") then Some flagged else None).

Definition library : Legacy.Library :=
  {| Legacy.fromYAMLFilePath configPath :=
       if bool_decide (configPath = Some "prh.yml") then Legacy.built engine
       else Legacy.threw (an_Error "ENOENT: no such file or directory");
     Legacy.path_resolve dir configPath :=
       match configPath with
       | Some file => Legacy.resolved (dir +:+ "/" +:+ file)
       | None => Legacy.failed (an_Error "TypeError: Path must be a string")
       end;
     Legacy.Uri_parse := Fixture.Uri_parse;
     Legacy.Uri_toString uri := Uri.scheme uri +:+ "://" +:+ Uri.path uri;
     Legacy.syncKind := SyncFull |}.

(** A handler whose configuration is loaded and enabled. *)
Definition loaded : Legacy.Handler :=
  Legacy.mkHandler (Some engine) true (Some "prh.yml") (Some "file:///work") ∅
    [Fixture.document; Fixture.scratch].

End LegacyFixture.

(** ** The methods of [Handler] *)

Section Handler.

(** [fs.existsSync]. *)
Variable existsSync : string -> bool.
(** prh's [getRuleFilePath]: the rule file found from a document's
    path, or null. *)
Variable getRuleFilePath : string -> option string.
(** prh's [fromYAMLFilePaths]. *)
Variable fromYAMLFilePaths : list string -> Construction.
(** [Uri.parse] of vscode-uri. *)
Variable Uri_parse : string -> Uri.t.

Definition clearDiagnostics {R} (textDocument : TextDocument.t) : Body R unit :=
  call tt (emit (sendDiagnostics (TextDocument.uri textDocument) [])).

Definition invalidateCache {R} : Body R unit :=
  call tt (
    assign (set_engineCache ∅) ;;;
    assign (set_validationCache ∅)).

Definition checkConfig {R} : Body R unit :=
  call tt (
    let! h := this in
    assign (set_configPaths (Some (default [] (configPaths h)))) ;;;
    let! h := this in
    let paths := default [] (configPaths h) in
    emit (console_log (log_loadConfig
            (or_else (Some (String.concat ", " paths)) "implicit"))) ;;;
    invalidateCache ;;;
    for_of paths (fun configPath =>
      if negb (existsSync configPath) then
        emit (console_log (log_rule_file_not_exists configPath)) ;;;
        let! h := this in
        (if negb (bool_decide (state h = invalid)) then
           emit (showWarningMessage
                   ("prh: 指定された設定ファイルが見つかりません " +:+ configPath))
         else pure tt) ;;;
        assign (set_state invalid) ;;;
        let! h := this in
        for_of (documents h) clearDiagnostics ;;;
        return_ tt
      else pure tt) ;;;
    assign (set_state valid)).

(** [textDocument] is what [this.documents.get] gave, so it may be
    [undefined].  Calls of [Uri.parse], [getRuleFilePath] and
    [engine.makeChangeSet] are taken to return. *)
Definition makeChangeSet {R} (textDocument : option TextDocument.t)
  : Body R (option ChangeSet.t) :=
  call None (
    let! h := this in
    (if negb (enable h) || bool_decide (state h = invalid)
     then return_ None else pure tt) ;;;
    let! d := deref "uri" textDocument in
    match validationCache h !! TextDocument.uri d with
    | Some cached =>
        if bool_decide (ChangeSetCache.version cached = TextDocument.version d)
        then return_ (Some (ChangeSetCache.changeSet cached))
        else pure tt
    | None => pure tt
    end ;;;
    assign (fun h =>
      set_validationCache (delete (TextDocument.uri d) (validationCache h)) h) ;;;

    let! h := this in
    let! configPaths :=
      (if truthy (configPaths h ≫= head) then
         pure (default [] (configPaths h))
       else
         let contentUri := Uri_parse (TextDocument.uri d) in
         if negb (bool_decide (Uri.scheme contentUri = "file")) then
           return_ None
         else
           let foundPath := getRuleFilePath (Uri.path contentUri) in
           if negb (truthy foundPath) then
             emit (console_log
                     (log_rule_file_not_found_for (TextDocument.uri d))) ;;;
             return_ None
           else
             emit (console_log (log_rule_file_found (default "" foundPath))) ;;;
             pure [default "" foundPath]) in

    let key := String.concat "|" configPaths in
    let! engine :=
      (let! h := this in
       match mjoin (engineCache h !! key) with
       | Some engine => pure (Some engine)
       | None =>
           let! engine :=
             try_catch
               (emit (call_fromYAMLFilePaths configPaths) ;;;
                match fromYAMLFilePaths configPaths with
                | built engine => pure (Some engine)
                | threw e => throw e
                end)
               (fun e =>
                  emit (console_error e) ;;;
                  match e with
                  | an_Error message =>
                      emit (showErrorMessage
                              ("prh: `" +:+ message +:+ "` from "
                               +:+ String.concat " ," configPaths)) ;;;
                      return_ None
                  | not_an_Error => pure None
                  end) in
           assign (fun h =>
             set_engineCache (<[key := engine]> (engineCache h)) h) ;;;
           pure engine
       end) in

    let! engine := deref "makeChangeSet" engine in
    emit (call_Engine_makeChangeSet
            (TextDocument.uri d) (TextDocument.getText d)) ;;;
    match Engine.makeChangeSet engine
            (TextDocument.uri d) (TextDocument.getText d) with
    | None => return_ None
    | Some changeSet =>
        assign (fun h =>
          set_validationCache
            (<[TextDocument.uri d :=
                 ChangeSetCache.mk (TextDocument.version d) changeSet]>
               (validationCache h)) h) ;;;
        return_ (Some changeSet)
    end).

(** The [diff.apply(...)] call in the callback has its result dropped
    and is left out. *)
Definition makeDiagnostic {R} (textDocument : TextDocument.t)
  : Body R (option (list Diagnostic.t)) :=
  call None (
    let! changeSet := makeChangeSet (Some textDocument) in
    match changeSet with
    | None => return_ None
    | Some changeSet =>
        let! diagnostics :=
          map_ (ChangeSet.diffs changeSet) (fun diff =>
            let start := TextDocument.positionAt textDocument (Diff.index diff) in
            let end_ := TextDocument.positionAt textDocument (Diff.tailIndex diff) in
            emit (console_log (log_diff diff)) ;;;
            let prh := (* diff.rule && diff.rule.raw && diff.rule.raw.prh *)
              match Diff.rule diff with
              | Some rule =>
                  match Rule.raw rule with
                  | Some raw => RawRule.prh raw
                  | None => None
                  end
              | None => None
              end in
            let message :=
              if truthy prh
              then "→" +:+ or_else (Diff.newText diff) "??" +:+ " " +:+ default "" prh
              else "→" +:+ or_else (Diff.newText diff) "??" in
            pure (Diagnostic.mk Warning (Range.mk start end_) message "prh")) in
        return_ (Some diagnostics)
    end).

Definition validateAndSendDiagnostics {R} (textDocument : TextDocument.t)
  : Body R unit :=
  call tt (
    let! diagnostics := makeDiagnostic textDocument in
    emit (sendDiagnostics (TextDocument.uri textDocument) (default [] diagnostics))).

Definition onDidChangeConfiguration {R} (settings : PrhSettings.t) : Body R unit :=
  call tt (
    emit (console_log (log_onDidChangeConfiguration settings)) ;;;
    assign (set_enable (default false (PrhSettings.enable settings))) ;;;
    assign (set_configPaths (Some (default [] (PrhSettings.configFiles settings)))) ;;;
    checkConfig ;;;
    let! h := this in
    for_of (documents h) validateAndSendDiagnostics).

Definition onDidChangeContent {R} (document : TextDocument.t) : Body R unit :=
  call tt (validateAndSendDiagnostics document).

(** [Object.keys(this.engineCache)] is enumerated in the map's key
    order; the order only decides which "matched" line is logged. *)
Definition onDidChangeWatchedFiles {R} (change : DidChangeWatchedFilesParams.t)
  : Body R unit :=
  call tt (
    emit (console_log (log_onDidChangeWatchedFiles change)) ;;;
    let! configChanged :=
      some (DidChangeWatchedFilesParams.changes change) (fun change_uri =>
        let uri := Uri_parse change_uri in
        let! h := this in
        some (map_to_list (engineCache h)).*1 (fun concatenatedRulePaths =>
          let rulePaths := split_bar concatenatedRulePaths in
          some rulePaths (fun rulePath =>
            if endsWith (Uri.path uri) rulePath then
              emit (console_log (log_matched (Uri.path uri) rulePath)) ;;;
              pure true
            else pure false))) in
    if configChanged : bool then
      checkConfig ;;;
      let! h := this in
      for_of (documents h) validateAndSendDiagnostics
    else pure tt).

Definition onCodeAction {R} (params : CodeActionParams.t) : Body R (list Command.t) :=
  call [] (
    let! h := this in
    let textDocument := documents_get h (CodeActionParams.textDocument_uri params) in
    let! changeSet := makeChangeSet textDocument in
    match changeSet with
    | None => return_ []
    | Some changeSet =>
        let! d := deref "offsetAt" textDocument in
        let range := CodeActionParams.range params in
        return_ (
          map (fun diff =>
                 let commandParams :=
                   ReplaceCommandParams.mk
                     (TextDocument.uri d) (TextDocument.version d)
                     (TextEdit.mk range (or_else (Diff.newText diff) "??")) in
                 Command.mk ("→ " +:+ or_else (Diff.newText diff) "??")
                            "replace" [commandParams])
            (List.filter (fun diff =>
                 let index := TextDocument.offsetAt d (Range.start range) in
                 let tailIndex := TextDocument.offsetAt d (Range.end_ range) in
                 bool_decide (Diff.index diff = index)
                 && bool_decide (Diff.tailIndex diff = tailIndex))
               (ChangeSet.diffs changeSet)))
    end).

(** [!args.arguments || !args.arguments[0]]. *)
Definition first_argument (args : ExecuteCommandParams.t) : option Argument :=
  match ExecuteCommandParams.arguments args ≫= head with
  | Some (arg_string s) => if bool_decide (s = "") then None else Some (arg_string s)
  | other => other
  end.

(** The callbacks given to [applyEdit(...).then] run later, on the
    host's answer, and only log it. *)
Definition executeReplace {R} (args : ExecuteCommandParams.t) : Body R unit :=
  call tt (
    match first_argument args with
    | None => return_ tt
    | Some commandParams =>
        let! h := this in
        match commandParams with
        | arg_params p =>
            emit (console_log (log_commandParams p)) ;;;
            let textDocument := documents_get h (ReplaceCommandParams.uri p) in
            let! d := deref "version" textDocument in
            if negb (bool_decide (ReplaceCommandParams.version p = TextDocument.version d))
            then
              emit (console_log (log_version_mismatch
                      (Some (ReplaceCommandParams.version p)) (TextDocument.version d))) ;;;
              return_ tt
            else
              emit (applyEdit (WorkspaceEdit.mk [
                      TextDocumentEdit.mk (TextDocument.uri d) (TextDocument.version d)
                        [ReplaceCommandParams.textEdit p]]))
        | arg_string s =>
            (* a string has no [uri] and no [version]: both read as [undefined] *)
            emit (console_log (log_json_string s)) ;;;
            let textDocument := documents_get h "undefined" in
            let! d := deref "version" textDocument in
            emit (console_log (log_version_mismatch None (TextDocument.version d))) ;;;
            return_ tt
        end
    end).

Definition getTextEditFromDiff (textDocument : TextDocument.t) (diff : Diff.t)
  : TextEdit.t :=
  let start := TextDocument.positionAt textDocument (Diff.index diff) in
  let end_ := TextDocument.positionAt textDocument (Diff.tailIndex diff) in
  TextEdit.mk (Range.mk start end_) (or_else (Diff.newText diff) "??").

Definition executeApplyAllQuickFixes {R} (args : ExecuteCommandParams.t) : Body R unit :=
  call tt (
    match first_argument args with
    | None => return_ tt
    | Some a =>
        let! h := this in
        let uri := match a with
                   | arg_string s => s
                   | arg_params _ => "[object Object]"
                   end in
        let textDocument := documents_get h uri in
        let! changeSet := makeChangeSet textDocument in
        match changeSet with
        | None => return_ tt
        | Some changeSet =>
            let! d := deref "uri" textDocument in
            let edits := map (getTextEditFromDiff d) (ChangeSet.diffs changeSet) in
            emit (applyEdit (WorkspaceEdit.mk [
                    TextDocumentEdit.mk (TextDocument.uri d) (TextDocument.version d)
                      edits]))
        end
    end).

Definition onExecuteCommand {R} (args : ExecuteCommandParams.t) : Body R unit :=
  call tt (
    if bool_decide (ExecuteCommandParams.command args = "replace") then
      executeReplace args
    else if bool_decide (ExecuteCommandParams.command args = "applyAllQuickFixes") then
      executeApplyAllQuickFixes args
    else
      emit (console_log (log_unknown_command (ExecuteCommandParams.command args)))).

(** [this.documents.syncKind]. *)
Variable syncKind : TextDocumentSyncKind.

(** The body is one [return] of an object literal. *)
Definition onInitialized {R} (params : InitializeParams.t)
  : Body R InitializeResult.t :=
  pure (InitializeResult.mk {|
    ServerCapabilities.textDocumentSync := syncKind;
    ServerCapabilities.hoverProvider := false;
    ServerCapabilities.completionProvider := None;
    ServerCapabilities.signatureHelpProvider := None;
    ServerCapabilities.definitionProvider := false;
    ServerCapabilities.referencesProvider := false;
    ServerCapabilities.documentHighlightProvider := false;
    ServerCapabilities.documentSymbolProvider := false;
    ServerCapabilities.workspaceSymbolProvider := false;
    ServerCapabilities.codeActionProvider := true;
    ServerCapabilities.codeLensProvider := None;
    ServerCapabilities.documentFormattingProvider := false;
    ServerCapabilities.documentRangeFormattingProvider := false;
    ServerCapabilities.documentOnTypeFormattingProvider := None;
    ServerCapabilities.renameProvider := false;
    ServerCapabilities.documentLinkProvider := None;
    ServerCapabilities.executeCommandProvider :=
      ExecuteCommandOptions.mk ["replace"];
    ServerCapabilities.experimental := false |}).

(** ** Vocabulary of the statements *)

(** A method called from another method completes as it does when run
    from the event loop. *)
Definition completion {R A} (o : Outcome A * Handler * list Event)
  : Completion R A * Handler * list Event :=
  match o with
  | (value a, h, t) => (normal a, h, t)
  | (exception e, h, t) => (thrown e, h, t)
  end.

(** The rule paths chosen for a document (the [let configPaths] block
    of [makeChangeSet]), with what the block logs; [None] is its
    [return null]. *)
Definition resolve (h : Handler) (d : TextDocument.t)
  : option (list string) * list Event :=
  if truthy (configPaths h ≫= head) then (Some (default [] (configPaths h)), [])
  else
    let contentUri := Uri_parse (TextDocument.uri d) in
    if negb (bool_decide (Uri.scheme contentUri = "file")) then (None, [])
    else
      let foundPath := getRuleFilePath (Uri.path contentUri) in
      if negb (truthy foundPath) then
        (None, [console_log (log_rule_file_not_found_for (TextDocument.uri d))])
      else
        (Some [default "" foundPath],
         [console_log (log_rule_file_found (default "" foundPath))]).

(** The end of [makeChangeSet], from the call of the engine on. *)
Definition invoke {R} (engine : Engine.t) (d : TextDocument.t)
    (h : Handler) (t : list Event)
  : Completion R (option ChangeSet.t) * Handler * list Event :=
  let called :=
    t ++ [call_Engine_makeChangeSet (TextDocument.uri d) (TextDocument.getText d)] in
  match Engine.makeChangeSet engine (TextDocument.uri d) (TextDocument.getText d) with
  | None => (normal None, h, called)
  | Some changeSet =>
      (normal (Some changeSet),
       set_validationCache
         (<[TextDocument.uri d :=
              ChangeSetCache.mk (TextDocument.version d) changeSet]>
            (validationCache h)) h,
       called)
  end.

(** [makeChangeSet] after a cache miss. *)
Definition miss {R} (d : TextDocument.t) (h : Handler)
  : Completion R (option ChangeSet.t) * Handler * list Event :=
  let h1 :=
    set_validationCache (delete (TextDocument.uri d) (validationCache h)) h in
  match resolve h d with
  | (None, logs) => (normal None, h1, logs)
  | (Some paths, logs) =>
      let key := String.concat "|" paths in
      match mjoin (engineCache h !! key) with
      | Some engine => invoke engine d h1 logs
      | None =>
          match fromYAMLFilePaths paths with
          | built engine =>
              invoke engine d
                (set_engineCache (<[key := Some engine]> (engineCache h1)) h1)
                (logs ++ [call_fromYAMLFilePaths paths])
          | threw (an_Error message) =>
              (normal None, h1,
               logs ++ [call_fromYAMLFilePaths paths;
                        console_error (an_Error message);
                        showErrorMessage
                          ("prh: `" +:+ message +:+ "` from "
                           +:+ String.concat " ," paths)])
          | threw not_an_Error =>
              (thrown (an_Error
                 "TypeError: Cannot read property of undefined: makeChangeSet"),
               set_engineCache (<[key := None]> (engineCache h1)) h1,
               logs ++ [call_fromYAMLFilePaths paths; console_error not_an_Error])
          end
      end
  end.

(** [makeChangeSet] read off path by path: what it returns, leaves and
    logs on each of its exits ([makeChangeSet_by_paths] below). *)
Definition makeChangeSet_paths {R} (textDocument : option TextDocument.t)
    (h : Handler)
  : Completion R (option ChangeSet.t) * Handler * list Event :=
  if negb (enable h) || bool_decide (state h = invalid) then (normal None, h, [])
  else
    match textDocument with
    | None =>
        (thrown (an_Error "TypeError: Cannot read property of undefined: uri"),
         h, [])
    | Some d =>
        match validationCache h !! TextDocument.uri d with
        | Some cached =>
            if bool_decide (ChangeSetCache.version cached = TextDocument.version d)
            then (normal (Some (ChangeSetCache.changeSet cached)), h, [])
            else miss d h
        | None => miss d h
        end
    end.

(** There is no cache hit for the document: no entry, or one of another
    version. *)
Definition cache_miss (h : Handler) (d : TextDocument.t) : Prop :=
  ∀ cached,
    validationCache h !! TextDocument.uri d = Some cached →
    ChangeSetCache.version cached ≠ TextDocument.version d.

(** The edits a trace submits to the host. *)
Definition submitted (t : list Event) : list WorkspaceEdit.t :=
  omap (λ e, match e with applyEdit edit => Some edit | _ => None end) t.

(** The messages a trace shows to the user. *)
Definition shown (t : list Event) : list string :=
  omap (λ e, match e with
             | showWarningMessage m | showErrorMessage m => Some m
             | _ => None
             end) t.

(** The diagnostics a trace publishes, per document. *)
Definition published (t : list Event) : list (string * list Diagnostic.t) :=
  omap (λ e, match e with
             | sendDiagnostics uri diagnostics => Some (uri, diagnostics)
             | _ => None
             end) t.

(** The calls of [engine.makeChangeSet] in a trace. *)
Definition invocations (t : list Event) : list (string * string) :=
  omap (λ e, match e with
             | call_Engine_makeChangeSet uri content => Some (uri, content)
             | _ => None
             end) t.




(** A correction spans exactly the requested range of the document. *)
Definition exact_span (d : TextDocument.t) (range : Range.t) (diff : Diff.t) : Prop :=
  Diff.index diff = TextDocument.offsetAt d (Range.start range)
  ∧ Diff.tailIndex diff = TextDocument.offsetAt d (Range.end_ range).

(** The replacement an action carries for a correction: its suggested
    text, or the marker when there is none (a missing or an empty
    [newText]). *)
Definition replacement (diff : Diff.t) (text : string) : Prop :=
  (∃ s, Diff.newText diff = Some s ∧ s ≠ "" ∧ text = s)
  ∨ ((Diff.newText diff = None ∨ Diff.newText diff = Some "") ∧ text = "??").

(** What the action offered for a correction is. *)
Definition offers (d : TextDocument.t) (range : Range.t)
    (diff : Diff.t) (action : Command.t) : Prop :=
  ∃ text,
    replacement diff text
    ∧ action
      = Command.mk ("→ " +:+ text) "replace"
          [ReplaceCommandParams.mk (TextDocument.uri d) (TextDocument.version d)
             (TextEdit.mk range text)].

(** The handler as [checkConfig] has it when the loop starts. *)
Definition cleared (h : Handler) : Handler :=
  set_validationCache ∅
    (set_engineCache ∅ (set_configPaths (Some (default [] (configPaths h))) h)).

(** The first console line of [checkConfig]. *)
Definition loadConfig_line (h : Handler) : Event :=
  console_log (log_loadConfig
    (or_else (Some (String.concat ", " (default [] (configPaths h)))) "implicit")).

(** The text of the warning for a missing rule file. *)
Definition not_found_warning (configPath : string) : string :=
  "prh: 指定された設定ファイルが見つかりません " +:+ configPath.

(** A run continued after the trace [t]. *)
Definition after {A} (t : list Event) (o : Outcome A * Handler * list Event)
  : Outcome A * Handler * list Event :=
  match o with (c, h, t') => (c, h, t ++ t') end.

(** A callback of [some] that leaves the handler alone and either
    rejects silently or accepts with a trace in [good]. *)
Definition decides {R} (good : list Event → Prop) (m : Body R bool) (h : Handler)
  : Prop :=
  m h = (normal false, h, []) ∨ ∃ t, good t ∧ m h = (normal true, h, t).

(** The one console line of a watched file that matched a rule path. *)
Definition matched_line (t : list Event) : Prop :=
  ∃ uri_path rulePath, t = [console_log (log_matched uri_path rulePath)].

(** The calls of [fromYAMLFilePaths] in a trace. *)
Definition constructions (t : list Event) : list (list string) :=
  omap (λ e, match e with
             | call_fromYAMLFilePaths configPaths => Some configPaths
             | _ => None
             end) t.

(** The requests the constructor registers a method for ([initialize] is
    answered with a constant and touches nothing; it is left out). *)
Inductive Request :=
| didChangeConfiguration (settings : PrhSettings.t)
| didChangeWatchedFiles (change : DidChangeWatchedFilesParams.t)
| codeAction (params : CodeActionParams.t)
| executeCommand (args : ExecuteCommandParams.t)
| didChangeContent (document : TextDocument.t).

(** What a request leaves of the handler and sends; the answer, or the
    exception, is dropped. *)
Definition dispatch (request : Request) (h : Handler) : Handler * list Event :=
  match request with
  | didChangeConfiguration settings =>
      let r := run (onDidChangeConfiguration settings) h in (r.1.2, r.2)
  | didChangeWatchedFiles change =>
      let r := run (onDidChangeWatchedFiles change) h in (r.1.2, r.2)
  | codeAction params =>
      let r := run (onCodeAction params) h in (r.1.2, r.2)
  | executeCommand args =>
      let r := run (onExecuteCommand args) h in (r.1.2, r.2)
  | didChangeContent document =>
      let r := run (onDidChangeContent document) h in (r.1.2, r.2)
  end.

(** The document manager opens, changes and closes documents on its own. *)
Definition set_documents (docs : list TextDocument.t) (h : Handler) : Handler :=
  mkHandler (enable h) (configPaths h) (state h) (engineCache h)
    (validationCache h) docs.

(** One step of the server: a request is handled, or the open documents
    change. *)
Inductive step : Handler → Handler → Prop :=
| step_request request h : step h (dispatch request h).1
| step_documents docs h : step h (set_documents docs h).

(** The handlers a server can be in, from its construction on. *)
Definition reachable (h : Handler) : Prop :=
  ∃ docs, rtc step (new_Handler docs) h.

(** While validation is switched off, or the configuration is invalid,
    both caches are empty. *)
Definition quiet_when_off (h : Handler) : Prop :=
  enable h = false ∨ state h = invalid →
  engineCache h = ∅ ∧ validationCache h = ∅.

(** A string without the separator of the engine cache's keys. *)
Fixpoint bar_free (s : string) : bool :=
  match s with
  | EmptyString => true
  | String c rest => negb (bool_decide (c = "|"%char)) && bar_free rest
  end.

(** The hint a correction's rule carries ([diff.rule.raw.prh]). *)
Definition hinted (diff : Diff.t) (hint : string) : Prop :=
  ∃ rule raw,
    Diff.rule diff = Some rule ∧ Rule.raw rule = Some raw
    ∧ RawRule.prh raw = Some hint.

(** What the diagnostic published for a correction is. *)
Definition flags (d : TextDocument.t) (diff : Diff.t) (diagnostic : Diagnostic.t)
  : Prop :=
  Diagnostic.severity diagnostic = Warning
  ∧ Diagnostic.source diagnostic = "prh"
  ∧ Diagnostic.range diagnostic
    = Range.mk (TextDocument.positionAt d (Diff.index diff))
        (TextDocument.positionAt d (Diff.tailIndex diff))
  ∧ ∃ text,
      replacement diff text
      ∧ (∀ hint, hinted diff hint → hint ≠ "" →
           Diagnostic.message diagnostic = "→" +:+ text +:+ " " +:+ hint)
      ∧ ((∀ hint, hinted diff hint → hint = "") →
           Diagnostic.message diagnostic = "→" +:+ text).

(** The corrections of a validation result; none for null. *)
Definition corrections (r : option ChangeSet.t) : list Diff.t :=
  match r with
  | Some changeSet => ChangeSet.diffs changeSet
  | None => []
  end.

(** Every engine of the engine cache is what [fromYAMLFilePaths] builds
    from the rule paths its key joins. *)
Definition engines_built (h : Handler) : Prop :=
  ∀ key engine,
    engineCache h !! key = Some (Some engine) →
    ∃ paths, key = String.concat "|" paths ∧ fromYAMLFilePaths paths = built engine.

(** A property of handlers that validations keep, that holds whenever
    [checkConfig] has just emptied the caches, and that does not depend
    on the open documents. *)
Definition stable (P : Handler → Prop) : Prop :=
  (∀ od h, P h → P (run (makeChangeSet od) h).1.2)
  ∧ (∀ h s, P (set_state s (cleared h)))
  ∧ (∀ docs h, P h → P (set_documents docs h)).

(** The commands the server advertises when it is initialised. *)
Definition advertised (result : InitializeResult.t) : list string :=
  ExecuteCommandOptions.commands
    (ServerCapabilities.executeCommandProvider
       (InitializeResult.capabilities result)).

(** The "Unknown command" lines of a trace. *)
Definition unknown (t : list Event) : list string :=
  omap (λ e, match e with
             | console_log (log_unknown_command command) => Some command
             | _ => None
             end) t.

(** A command [onExecuteCommand] has a case for: it is never answered
    with the "Unknown command" line. *)
Definition handled (command : string) : Prop :=
  ∀ args h,
    ExecuteCommandParams.command args = command →
    unknown (run (onExecuteCommand args) h).2 = [].

(** ** Properties *)

Ltac exec :=
  unfold run, call, bind, pure, this, assign, emit, return_, throw,
    try_catch, deref in *; cbn [fst snd] in *.

Lemma makeChangeSet_by_paths {R} textDocument h :
  makeChangeSet (R:=R) textDocument h = makeChangeSet_paths textDocument h.
Proof.
  unfold makeChangeSet, makeChangeSet_paths, miss, invoke, resolve. exec.
  destruct (negb (enable h) || bool_decide (state h = invalid)); [reflexivity|].
  destruct textDocument as [d|]; [cbn|reflexivity].
  destruct (validationCache h !! TextDocument.uri d) as [cached|];
    [destruct (bool_decide _); [reflexivity|]|];
    (destruct (truthy (configPaths h ≫= head)); cbn;
     [|destruct (bool_decide (Uri.scheme _ = "file")); cbn; [|reflexivity];
       destruct (truthy (getRuleFilePath _)); cbn; [|reflexivity]]);
    (destruct (mjoin _) as [engine|]; cbn;
     [|destruct (fromYAMLFilePaths _) as [engine|[message|]]; cbn;
       [|reflexivity..]]);
    destruct (Engine.makeChangeSet _ _ _); reflexivity.
Qed.

Lemma makeChangeSet_disabled {R} (textDocument : option TextDocument.t) h :
  enable h = false ∨ state h = invalid →
  makeChangeSet (R:=R) textDocument h = (normal None, h, []).
Proof.
  intros Hoff. unfold makeChangeSet. exec.
  destruct Hoff as [-> | ->]; [reflexivity|].
  rewrite bool_decide_eq_true_2 by reflexivity.
  rewrite orb_true_r. reflexivity.
Qed.

Lemma makeChangeSet_hit {R} d h cached :
  enable h = true → state h = valid →
  validationCache h !! TextDocument.uri d = Some cached →
  ChangeSetCache.version cached = TextDocument.version d →
  makeChangeSet (R:=R) (Some d) h
  = (normal (Some (ChangeSetCache.changeSet cached)), h, []).
Proof.
  intros He Hs Hc Hv. unfold makeChangeSet. exec.
  rewrite He, Hs. cbn. rewrite Hc. cbn.
  rewrite (bool_decide_eq_true_2 _ Hv). reflexivity.
Qed.

Lemma call_run {R R' : Type} (dflt : R) (body : Body R unit) h :
  call (R':=R') dflt body h = completion (run (call dflt body) h).
Proof. unfold run, call, completion. by destruct (body h) as [[[]]]. Qed.

Lemma makeChangeSet_run {R} textDocument h :
  makeChangeSet (R:=R) textDocument h
  = completion (run (makeChangeSet textDocument) h).
Proof. apply call_run. Qed.

Lemma documents_get_uri h uri d :
  documents_get h uri = Some d → TextDocument.uri d = uri.
Proof.
  unfold documents_get. intros [_ Hd]%find_some.
  by apply bool_decide_eq_true_1 in Hd.
Qed.

Lemma List_filter_decide {A} (f : A → bool) (P : A → Prop)
    `{∀ x, Decision (P x)} l :
  (∀ x, f x = true ↔ P x) → List.filter f l = filter P l.
Proof.
  intros Hf. induction l as [|x l IH]; [done|].
  rewrite filter_cons. cbn [List.filter].
  destruct (decide (P x)) as [HP|HP], (f x) eqn:Hfx; rewrite IH; try done.
  - apply Hf in HP. congruence.
  - by apply Hf in Hfx.
Qed.

Lemma state_not_invalid h :
  negb (enable h) || bool_decide (state h = invalid) = false →
  enable h = true ∧ state h = valid.
Proof.
  intros [Hen Hst]%orb_false_elim.
  apply negb_false_iff in Hen. apply bool_decide_eq_false_1 in Hst.
  split; [done|]. by destruct (state h).
Qed.

(** Splits a hypothesis on a completed [makeChangeSet] into its paths. *)
Ltac by_paths H :=
  rewrite makeChangeSet_by_paths in H;
  unfold makeChangeSet_paths, miss, invoke in H;
  repeat case_match; simplify_eq/=.

Lemma resolve_logs h d paths logs :
  resolve h d = (paths, logs) → invocations logs = [].
Proof.
  unfold resolve. intros H. by repeat case_match; simplify_eq/=.
Qed.

Lemma invocations_app t1 t2 :
  invocations (t1 ++ t2) = invocations t1 ++ invocations t2.
Proof. apply omap_app. Qed.

(** Normalises what is known of a miss path. *)
Ltac unfold_on :=
  repeat match goal with
         | Hon : negb _ || _ = false |- _ =>
             apply state_not_invalid in Hon as [? ?]
         | Hres : resolve _ _ = (_, ?logs) |- _ =>
             lazymatch goal with
             | _ : invocations logs = [] |- _ => fail
             | _ => pose proof (resolve_logs _ _ _ _ Hres)
             end
         end.

Lemma makeChangeSet_invokes_once od h c h' t :
  run (makeChangeSet od) h = (c, h', t) → (length (invocations t) ≤ 1)%nat.
Proof.
  unfold run. intros H. by_paths H; unfold_on.
  all: rewrite ?invocations_app; cbn.
  all: repeat match goal with Hq : invocations _ = [] |- _ => rewrite Hq end.
  all: cbn; lia.
Qed.

Lemma makeChangeSet_Some od h cs h' t :
  run (makeChangeSet od) h = (value (Some cs), h', t) →
  ∃ d, od = Some d ∧ enable h' = true ∧ state h' = valid
    ∧ validationCache h' !! TextDocument.uri d
      = Some (ChangeSetCache.mk (TextDocument.version d) cs).
Proof.
  unfold run. intros H. by_paths H.
  all: match goal with
       | Hon : negb _ || _ = false |- _ =>
           apply state_not_invalid in Hon as [? ?]
       end.
  all: eexists; split; [reflexivity|]; cbn; split_and!; try done.
  all: try (by rewrite lookup_insert_eq).
  match goal with
  | Hv : bool_decide _ = true, Hc : _ !! _ = Some ?c |- _ =>
      apply bool_decide_eq_true_1 in Hv; rewrite Hc; destruct c; cbn in *;
      by subst
  end.
Qed.

(** C1. When a validation of a document has returned a result, an
    immediately following validation of the same document (same
    version, no event in between, so the handler is as the first call
    left it) returns that same change set from the cache: the handler's
    fields stay as they are and the trace is empty, so neither
    [engine.makeChangeSet] nor [fromYAMLFilePaths] is called again, and
    over the two calls the engine is invoked at most once. *)
Theorem validate_twice_returns_cached d h cs h' t :
  run (makeChangeSet (Some d)) h = (value (Some cs), h', t) →
  ∃ t',
    run (makeChangeSet (Some d)) h' = (value (Some cs), h', t')
    ∧ t' = []
    ∧ (length (invocations (t ++ t')) ≤ 1)%nat.
Proof.
  intros H. exists []. rewrite app_nil_r. split_and!; [|done|].
  - apply makeChangeSet_Some in H as (d' & [= <-] & He & Hs & Hc).
    unfold run. by rewrite (makeChangeSet_hit _ _ _ He Hs Hc eq_refl).
  - by eapply makeChangeSet_invokes_once.
Qed.

(** C2. With [enable] false or the state invalid, validation returns
    null at once (nothing is logged, built or invoked, no field
    changes), and [validateAndSendDiagnostics] then publishes the empty
    diagnostic list for the document. *)
Theorem disabled_validation_clears_diagnostics d h :
  enable h = false ∨ state h = invalid →
  run (makeChangeSet (Some d)) h = (value None, h, [])
  ∧ run (validateAndSendDiagnostics d) h
    = (value tt, h, [sendDiagnostics (TextDocument.uri d) []]).
Proof.
  intros Hoff. split.
  - unfold run. by rewrite makeChangeSet_disabled.
  - unfold run, validateAndSendDiagnostics, makeDiagnostic, call at 1 2, bind.
    by rewrite makeChangeSet_disabled.
Qed.

(** C3. A "replace" command whose argument carries a document, an
    expected version and a text edit, for an open document: when the
    expected version differs from the document's version the command
    only writes two console lines (the argument, then the mismatch),
    submits nothing and returns; when they are equal it submits one
    [applyEdit] holding the one text edit, for that document at its
    version.  In both cases no field of the handler changes and nothing
    is thrown. *)
Theorem replace_checks_version h args p rest d :
  ExecuteCommandParams.command args = "replace" →
  ExecuteCommandParams.arguments args = Some (arg_params p :: rest) →
  documents_get h (ReplaceCommandParams.uri p) = Some d →
  TextDocument.uri d = ReplaceCommandParams.uri p
  ∧ (ReplaceCommandParams.version p ≠ TextDocument.version d →
     run (onExecuteCommand args) h
     = (value tt, h,
        [console_log (log_commandParams p);
         console_log (log_version_mismatch
           (Some (ReplaceCommandParams.version p)) (TextDocument.version d))]))
  ∧ (ReplaceCommandParams.version p = TextDocument.version d →
     run (onExecuteCommand args) h
     = (value tt, h,
        [console_log (log_commandParams p);
         applyEdit (WorkspaceEdit.mk [
           TextDocumentEdit.mk (TextDocument.uri d) (TextDocument.version d)
             [ReplaceCommandParams.textEdit p]])])).
Proof.
  intros Hcmd Hargs Hdoc. split; [by eapply documents_get_uri|].
  unfold onExecuteCommand, executeReplace, first_argument.
  rewrite Hcmd, Hargs, (bool_decide_eq_true_2 _ (eq_refl "replace")).
  exec. cbn -[documents_get]. rewrite Hdoc. cbn.
  split; intros Hv.
  - by rewrite (bool_decide_eq_false_2 _ Hv).
  - by rewrite (bool_decide_eq_true_2 _ Hv).
Qed.

Lemma makeChangeSet_submits_nothing od h c h' t :
  run (makeChangeSet od) h = (c, h', t) → submitted t = [].
Proof.
  unfold run. intros H. rewrite makeChangeSet_by_paths in H.
  unfold makeChangeSet_paths, miss, invoke, resolve in H.
  repeat case_match; by simplify_eq/=.
Qed.



Lemma or_else_replacement diff : replacement diff (or_else (Diff.newText diff) "??").
Proof.
  unfold replacement, or_else. destruct (Diff.newText diff) as [s|]; [|by auto].
  case_bool_decide; subst; [by auto|]. left. by exists s.
Qed.

(** C7. A code-action request for an open document returns, when the
    validation yields a change set, one "replace" action for each
    correction whose span equals the requested range converted to
    offsets, in order, and none for any other correction; each action
    carries the document's uri, its version, the requested range and
    the correction's replacement text or the marker.  When the
    validation yields null the result is empty. *)
Theorem codeAction_exact_span h params d r h' t :
  documents_get h (CodeActionParams.textDocument_uri params) = Some d →
  run (makeChangeSet (Some d)) h = (value r, h', t) →
  ∃ actions,
    run (onCodeAction params) h = (value actions, h', t)
    ∧ match r with
      | None => actions = []
      | Some changeSet =>
          Forall2 (offers d (CodeActionParams.range params))
            (filter (exact_span d (CodeActionParams.range params))
               (ChangeSet.diffs changeSet))
            actions
      end.
Proof.
  intros Hdoc Hval. unfold onCodeAction.
  unfold run, call at 1, bind, this. cbn -[documents_get makeChangeSet].
  rewrite Hdoc, makeChangeSet_run, Hval. destruct r as [changeSet|]; exec; cbn.
  - eexists. split; [by rewrite app_nil_r|].
    rewrite (List_filter_decide _
               (exact_span d (CodeActionParams.range params))); last first.
    { intros diff. unfold exact_span.
      by rewrite andb_true_iff, !bool_decide_eq_true. }
    induction (filter _ _) as [|diff diffs IH]; cbn; constructor; [|done].
    exists (or_else (Diff.newText diff) "??").
    split; [apply or_else_replacement|done].
  - eexists. split; [by rewrite app_nil_r|done].
Qed.

(** *** [checkConfig] *)

Lemma for_of_skip {R A} (before : list A) x after (body : A → Body R unit) h :
  Forall (λ y, body y h = (normal tt, h, [])) before →
  for_of (before ++ x :: after) body h
  = (body x ;;; for_of after body) h.
Proof.
  induction 1 as [|y before Hy _ IH]; [done|].
  cbn [app for_of]. unfold bind at 1. rewrite Hy, IH.
  by destruct ((body x ;;; for_of after body) h) as [[? ?] ?].
Qed.

Lemma for_of_all_skip {R A} (xs : list A) (body : A → Body R unit) h :
  Forall (λ y, body y h = (normal tt, h, [])) xs →
  for_of xs body h = (normal tt, h, []).
Proof.
  induction 1 as [|y xs Hy _ IH]; [done|].
  cbn [for_of]. unfold bind. by rewrite Hy, IH.
Qed.

Lemma clearDiagnostics_all {R} docs h :
  for_of (R:=R) docs clearDiagnostics h
  = (normal tt, h, map (λ d, sendDiagnostics (TextDocument.uri d) []) docs).
Proof.
  induction docs as [|d docs IH]; [done|].
  cbn [for_of map]. unfold bind, clearDiagnostics at 1, call, emit.
  by rewrite IH.
Qed.

Lemma shown_cleared docs :
  shown (map (λ d, sendDiagnostics (TextDocument.uri d) []) docs) = [].
Proof. by induction docs. Qed.

Lemma first_missing (paths : list string) :
  Forall (λ p, existsSync p = true) paths
  ∨ ∃ before p after,
      paths = before ++ p :: after
      ∧ Forall (λ q, existsSync q = true) before
      ∧ existsSync p = false.
Proof.
  induction paths as [|p paths [IH|(before & q & after & -> & Hb & Hq)]].
  - by left.
  - destruct (existsSync p) eqn:Hp; [left; by constructor|].
    right. by exists [], p, paths.
  - destruct (existsSync p) eqn:Hp.
    + right. exists (p :: before), q, after. split_and!; [done| |done].
      by constructor.
    + right. by exists [], p, (before ++ q :: after).
Qed.

Lemma checkConfig_cases h :
  let paths := default [] (configPaths h) in
  (Forall (λ p, existsSync p = true) paths →
   run checkConfig h = (value tt, set_state valid (cleared h), [loadConfig_line h]))
  ∧ (∀ before p after,
       paths = before ++ p :: after →
       Forall (λ q, existsSync q = true) before →
       existsSync p = false →
       run checkConfig h
       = (value tt, set_state invalid (cleared h),
          [loadConfig_line h; console_log (log_rule_file_not_exists p)]
          ++ (if decide (state h = invalid) then []
              else [showWarningMessage (not_found_warning p)])
          ++ map (λ d, sendDiagnostics (TextDocument.uri d) []) (documents h))).
Proof.
  intros paths. unfold checkConfig, invalidateCache, loadConfig_line.
  fold paths.
  match goal with |- context [for_of _ ?b] => set (body := b) end.
  unfold run, call, bind, this, assign, emit. cbn. fold paths.
  set (h0 := set_validationCache _ _).
  split.
  - intros Hall. rewrite for_of_all_skip; [done|].
    eapply Forall_impl; [exact Hall|]. intros p Hp. subst body.
    cbn beta. by rewrite Hp.
  - intros before p after Hpaths Hbefore Hp.
    rewrite Hpaths, for_of_skip; last first.
    { eapply Forall_impl; [exact Hbefore|]. intros q Hq. subst body.
      cbn beta. by rewrite Hq. }
    unfold bind at 1. unfold body at 1. rewrite Hp. cbn [negb].
    unfold bind, this, assign, emit, return_, pure. subst h0.
    cbn [state set_validationCache set_engineCache set_configPaths].
    destruct (decide (state h = invalid)) as [Hst|Hst];
      [rewrite (bool_decide_eq_true_2 _ Hst)
      |rewrite (bool_decide_eq_false_2 _ Hst)];
      cbn [negb]; rewrite clearDiagnostics_all; cbn.
    all: by rewrite app_nil_r.
Qed.

Lemma published_cleared docs :
  published (map (λ d, sendDiagnostics (TextDocument.uri d) []) docs)
  = map (λ d, (TextDocument.uri d, [])) docs.
Proof. induction docs as [|d docs IH]; [done|]. cbn. by rewrite <- IH. Qed.

(** C8, as the code has it.  [checkConfig] tests the configured paths in
    order.  When all exist the state becomes valid and nothing is shown
    or published.  At the first missing path the state becomes invalid
    and the empty diagnostic list is published for every open document;
    the warning naming that path is shown when the state was not already
    invalid, exactly once, and not at all when it was.  Both caches are
    empty afterwards in either case. *)
Theorem checkConfig_sets_state h :
  let paths := default [] (configPaths h) in
  (Forall (λ p, existsSync p = true) paths →
   ∃ t,
     run checkConfig h = (value tt, set_state valid (cleared h), t)
     ∧ shown t = [] ∧ published t = [])
  ∧ (∀ before p after,
       paths = before ++ p :: after →
       Forall (λ q, existsSync q = true) before →
       existsSync p = false →
       ∃ t,
         run checkConfig h = (value tt, set_state invalid (cleared h), t)
         ∧ shown t = (if decide (state h = invalid) then []
                      else [not_found_warning p])
         ∧ published t = map (λ d, (TextDocument.uri d, [])) (documents h)).
Proof.
  intros paths. destruct (checkConfig_cases h) as [Hall Hmissing]. split.
  - intros Hexist. rewrite (Hall Hexist). by eexists.
  - intros before p after Hpaths Hbefore Hp.
    rewrite (Hmissing _ _ _ Hpaths Hbefore Hp). eexists. split; [done|].
    unfold shown, published. rewrite !omap_app.
    fold (shown (map (λ d, sendDiagnostics (TextDocument.uri d) []) (documents h))).
    fold (published (map (λ d, sendDiagnostics (TextDocument.uri d) []) (documents h))).
    rewrite shown_cleared, published_cleared.
    by destruct (decide (state h = invalid)).
Qed.

(** *** Configuration and watched-file events *)

Lemma checkConfig_clears h :
  ∃ s t, run checkConfig h = (value tt, set_state s (cleared h), t).
Proof.
  destruct (checkConfig_cases h) as [Hall Hmissing].
  destruct (first_missing (default [] (configPaths h)))
    as [Hex|(before & p & after & Hpaths & Hbefore & Hp)].
  - eauto.
  - rewrite (Hmissing _ _ _ Hpaths Hbefore Hp). eauto.
Qed.

Lemma checkConfig_forgets h engines validations :
  run checkConfig (set_validationCache validations (set_engineCache engines h))
  = run checkConfig h.
Proof.
  set (h' := set_validationCache _ _).
  destruct (checkConfig_cases h) as [Hall Hmissing].
  destruct (checkConfig_cases h') as [Hall' Hmissing'].
  destruct (first_missing (default [] (configPaths h)))
    as [Hex|(before & p & after & Hpaths & Hbefore & Hp)].
  - by rewrite Hall, Hall'.
  - by rewrite (Hmissing _ _ _ Hpaths Hbefore Hp),
      (Hmissing' _ _ _ Hpaths Hbefore Hp).
Qed.

Lemma for_of_validate_run {R} docs h :
  for_of (R:=R) docs validateAndSendDiagnostics h
  = completion (run (for_of docs validateAndSendDiagnostics) h).
Proof.
  revert h. induction docs as [|d docs IH]; intros h; [done|].
  cbn [for_of]. unfold run, bind.
  unfold validateAndSendDiagnostics at 1 3. rewrite !(call_run (R':=R)).
  rewrite (call_run (R':=Empty_set)).
  destruct (run _ h) as [[[[]|e] h1] t1]; cbn; [|done].
  rewrite !IH. unfold run.
  by destruct (for_of docs validateAndSendDiagnostics h1) as [[[[]|[]|e] h2] t2].
Qed.

Lemma onDidChangeConfiguration_run settings h :
  let h0 :=
    set_configPaths (Some (default [] (PrhSettings.configFiles settings)))
      (set_enable (default false (PrhSettings.enable settings)) h) in
  ∀ h1 t1,
    run checkConfig h0 = (value tt, h1, t1) →
    run (onDidChangeConfiguration settings) h
    = after (console_log (log_onDidChangeConfiguration settings) :: t1)
        (run (for_of (documents h1) validateAndSendDiagnostics) h1).
Proof.
  intros h0 h1 t1 Hcheck. unfold onDidChangeConfiguration.
  unfold run at 1, call at 1, bind, emit, assign, this. fold h0.
  unfold checkConfig at 1. rewrite call_run. fold (@checkConfig Empty_set).
  rewrite Hcheck. cbn. rewrite for_of_validate_run.
  by destruct (run _ h1) as [[[[]|e] h2] t2].
Qed.

Lemma some_decides {R A} (xs : list A) (cb : A → Body R bool) h good :
  Forall (λ x, decides good (cb x) h) xs → decides good (some xs cb) h.
Proof.
  induction 1 as [|x xs [Hx|(t & Ht & Hx)] _ IH]; [by left|..].
  - cbn [some]. unfold decides, bind. rewrite Hx.
    destruct IH as [->|(t & Ht & ->)]; [by left|right; eauto].
  - right. exists t. split; [done|]. cbn [some]. unfold bind, pure.
    by rewrite Hx, app_nil_r.
Qed.

Lemma some_accepts {R A} (xs : list A) (cb : A → Body R bool) h good x :
  x ∈ xs →
  (∃ t, cb x h = (normal true, h, t)) →
  Forall (λ x, decides good (cb x) h) xs →
  ∃ t, good t ∧ some xs cb h = (normal true, h, t).
Proof.
  intros Hin [tx Hx] Hall.
  destruct (some_decides _ _ _ _ Hall) as [Hnone|?]; [|done].
  exfalso. revert Hnone. induction Hall as [|y xs Hy Hall IH]; [by inv Hin|].
  cbn [some]. unfold bind.
  destruct Hy as [Hy|(t & _ & Hy)]; rewrite Hy; [|by unfold pure].
  apply elem_of_cons in Hin as [->|Hin]; [congruence|].
  destruct (some xs cb h) as [[? ?] ?] eqn:Hsome. intros [= -> -> ->].
  by apply IH.
Qed.

Lemma onDidChangeWatchedFiles_run change h change_uri key rulePath :
  change_uri ∈ DidChangeWatchedFilesParams.changes change →
  is_Some (engineCache h !! key) →
  rulePath ∈ split_bar key →
  endsWith (Uri.path (Uri_parse change_uri)) rulePath = true →
  ∃ matched,
    matched_line matched
    ∧ ∀ h1 t1,
        run checkConfig h = (value tt, h1, t1) →
        run (onDidChangeWatchedFiles change) h
        = after (console_log (log_onDidChangeWatchedFiles change) :: matched ++ t1)
            (run (for_of (documents h1) validateAndSendDiagnostics) h1).
Proof.
  intros Hchange [engine Hkey] Hrule Hends.
  unfold onDidChangeWatchedFiles.
  match goal with |- context [some _ ?cb] => set (callback := cb) end.
  assert (Hinner : ∀ uri_path rulePaths,
    Forall (λ rulePath, decides (R:=unit) matched_line
      (if endsWith uri_path rulePath
       then emit (console_log (log_matched uri_path rulePath)) ;;; pure true
       else pure false) h) rulePaths).
  { intros uri_path rulePaths. apply Forall_forall. intros r _.
    destruct (endsWith uri_path r); [right|by left].
    eexists. split; [by exists uri_path, r|done]. }
  assert (Hkeys : ∀ uri_path keys,
    Forall (λ concatenatedRulePaths, decides (R:=unit) matched_line
      (some (split_bar concatenatedRulePaths) (λ rulePath,
         if endsWith uri_path rulePath
         then emit (console_log (log_matched uri_path rulePath)) ;;; pure true
         else pure false)) h) keys).
  { intros uri_path keys. apply Forall_forall. intros k _.
    apply some_decides, Hinner. }
  assert (Hcb : ∀ u, decides matched_line (callback u) h).
  { intros u. subst callback. cbn beta zeta. unfold bind at 1, this.
    destruct (some_decides _ _ _ _
                (Hkeys (Uri.path (Uri_parse u)) (map_to_list (engineCache h)).*1))
      as [Hnone|(t & Ht & Hsome)].
    - left. by rewrite Hnone.
    - right. exists t. split; [done|]. by rewrite Hsome. }
  destruct (some_accepts (DidChangeWatchedFilesParams.changes change)
              callback h matched_line change_uri Hchange)
    as (matched & Hmatched & Hsome).
  { subst callback. cbn beta zeta. unfold bind at 1, this.
    match goal with
    | |- context [some ?keys ?cb] =>
        destruct (some_accepts (R:=unit) keys cb h matched_line key)
          as (t & _ & ->); [| |apply Hkeys|by eauto]
    end.
    - apply list_elem_of_fmap. exists (key, engine).
      split; [done|]. by apply elem_of_map_to_list.
    - match goal with
      | |- context [some ?rulePaths ?cb] =>
          destruct (some_accepts (R:=unit) rulePaths cb h matched_line
                      rulePath Hrule)
            as (t & _ & Ht); [|apply Hinner|by eauto]
      end.
      rewrite Hends. by eexists. }
  { apply Forall_forall. intros u _. apply Hcb. }
  exists matched. split; [done|]. intros h1 t1 Hcheck.
  unfold run at 1, call at 1, bind at 1 2, emit. rewrite Hsome.
  unfold bind, this. unfold checkConfig at 1. rewrite call_run.
  fold (@checkConfig Empty_set). rewrite Hcheck. cbn.
  rewrite for_of_validate_run.
  destruct (run _ h1) as [[[[]|e] h2] t2]; cbn;
    by rewrite ?app_nil_r, <- ?app_assoc.
Qed.

(** C4. A configuration change, and a watched-file change that matches
    a rule path of the engine cache, first run [checkConfig], which
    leaves both caches empty whatever it finds, and only then validate
    the open documents again, starting from the emptied caches.  What a
    configuration change does and leaves behind is therefore the same
    whatever the two caches held before: no engine and no validation
    result from before the change is used again. *)
Theorem config_events_clear_both_caches h :
  (∀ settings,
     let h0 :=
       set_configPaths (Some (default [] (PrhSettings.configFiles settings)))
         (set_enable (default false (PrhSettings.enable settings)) h) in
     ∃ h1 t1,
       run checkConfig h0 = (value tt, h1, t1)
       ∧ engineCache h1 = ∅ ∧ validationCache h1 = ∅
       ∧ run (onDidChangeConfiguration settings) h
         = after (console_log (log_onDidChangeConfiguration settings) :: t1)
             (run (for_of (documents h1) validateAndSendDiagnostics) h1)
       ∧ ∀ engines validations,
           run (onDidChangeConfiguration settings)
             (set_validationCache validations (set_engineCache engines h))
           = run (onDidChangeConfiguration settings) h)
  ∧ (∀ change change_uri key rulePath,
       change_uri ∈ DidChangeWatchedFilesParams.changes change →
       is_Some (engineCache h !! key) →
       rulePath ∈ split_bar key →
       endsWith (Uri.path (Uri_parse change_uri)) rulePath = true →
       ∃ h1 t1 matched,
         matched_line matched
         ∧ run checkConfig h = (value tt, h1, t1)
         ∧ engineCache h1 = ∅ ∧ validationCache h1 = ∅
         ∧ run (onDidChangeWatchedFiles change) h
           = after (console_log (log_onDidChangeWatchedFiles change)
                    :: matched ++ t1)
               (run (for_of (documents h1) validateAndSendDiagnostics) h1)).
Proof.
  split.
  - intros settings h0.
    destruct (checkConfig_clears h0) as (s & t1 & Hcheck).
    eexists _, t1. split_and!; [exact Hcheck|done|done|..].
    + by apply onDidChangeConfiguration_run.
    + intros engines validations.
      rewrite (onDidChangeConfiguration_run settings h _ _ Hcheck).
      apply onDidChangeConfiguration_run.
      change (run checkConfig
                (set_validationCache validations (set_engineCache engines h0))
              = (value tt, set_state s (cleared h0), t1)).
      by rewrite checkConfig_forgets.
  - intros change change_uri key rulePath Hchange Hkey Hrule Hends.
    destruct (checkConfig_clears h) as (s & t1 & Hcheck).
    destruct (onDidChangeWatchedFiles_run _ _ _ _ _ Hchange Hkey Hrule Hends)
      as (matched & Hmatched & Hrun).
    eexists _, t1, matched. split_and!; [done|exact Hcheck|done|done|].
    by apply Hrun.
Qed.

(** *** Validation outcomes *)

Lemma makeChangeSet_miss {R} d h :
  enable h = true → state h = valid → cache_miss h d →
  makeChangeSet (R:=R) (Some d) h = miss d h.
Proof.
  intros Hen Hst Hmiss. rewrite makeChangeSet_by_paths.
  unfold makeChangeSet_paths. rewrite Hen, Hst. cbn.
  destruct (validationCache h !! TextDocument.uri d) as [cached|] eqn:Hc;
    [|done].
  by rewrite (bool_decide_eq_false_2 _ (Hmiss _ Hc)).
Qed.

(** C9. For a document that no configured rule path covers
    ([configPaths] empty, or with an empty first entry), when no rule
    set is found (the uri is not a file uri, or [getRuleFilePath] finds
    nothing) and the cache has no result for this version, validation
    returns null: nothing is thrown, nothing is shown to the user (at
    most one console line is written), no engine is built or invoked,
    and the diagnostics published for the document are the empty
    list. *)
Theorem unresolved_rule_set_is_silent d h :
  truthy (configPaths h ≫= head) = false →
  Uri.scheme (Uri_parse (TextDocument.uri d)) ≠ "file"
  ∨ truthy (getRuleFilePath (Uri.path (Uri_parse (TextDocument.uri d)))) = false →
  cache_miss h d →
  ∃ h' t,
    run (makeChangeSet (Some d)) h = (value None, h', t)
    ∧ (t = [] ∨ t = [console_log (log_rule_file_not_found_for (TextDocument.uri d))])
    ∧ shown t = []
    ∧ engineCache h' = engineCache h
    ∧ run (validateAndSendDiagnostics d) h
      = (value tt, h', t ++ [sendDiagnostics (TextDocument.uri d) []]).
Proof.
  intros Hglobal Hunresolved Hmiss.
  assert (∃ h' t,
    run (makeChangeSet (Some d)) h = (value None, h', t)
    ∧ (t = [] ∨ t = [console_log (log_rule_file_not_found_for (TextDocument.uri d))])
    ∧ engineCache h' = engineCache h) as (h' & t & Hrun & Ht & Hengines).
  { destruct (negb (enable h) || bool_decide (state h = invalid)) eqn:Hon.
    - exists h, []. unfold run. rewrite makeChangeSet_disabled; [by auto|].
      apply orb_true_iff in Hon as [Hen%negb_true_iff|Hst%bool_decide_eq_true_1];
        auto.
    - apply state_not_invalid in Hon as [Hen Hst]. unfold run.
      rewrite makeChangeSet_miss by done. unfold miss, resolve.
      rewrite Hglobal.
      destruct Hunresolved as [Hscheme|Hfound].
      + rewrite (bool_decide_eq_false_2 _ Hscheme). cbn. eauto 6.
      + rewrite Hfound. destruct (bool_decide _); cbn; eauto 6. }
  exists h', t. split_and!; try done.
  - by destruct Ht as [-> | ->].
  - unfold validateAndSendDiagnostics, makeDiagnostic.
    unfold run at 1, call at 1 2, bind.
    rewrite makeChangeSet_run, Hrun. cbn. by rewrite app_nil_r.
Qed.

(** C5.  When a validation misses both caches and construction fails,
    [fromYAMLFilePaths] throwing an [Error] for the resolved paths, the
    error is written to the console and shown to the user with its
    message and the path list, validation returns null (nothing is
    thrown), and the engine cache is left as it was, without an entry
    for these paths; the same validation run again calls
    [fromYAMLFilePaths] again. *)
Theorem construction_failure_is_reported_not_cached d h paths logs message :
  enable h = true → state h = valid → cache_miss h d →
  resolve h d = (Some paths, logs) →
  mjoin (engineCache h !! String.concat "|" paths) = None →
  fromYAMLFilePaths paths = threw (an_Error message) →
  let h' :=
    set_validationCache (delete (TextDocument.uri d) (validationCache h)) h in
  let t :=
    logs ++ [call_fromYAMLFilePaths paths;
             console_error (an_Error message);
             showErrorMessage
               ("prh: `" +:+ message +:+ "` from " +:+ String.concat " ," paths)] in
  run (makeChangeSet (Some d)) h = (value None, h', t)
  ∧ engineCache h' = engineCache h
  ∧ run (makeChangeSet (Some d)) h' = (value None, h', t).
Proof.
  intros Hen Hst Hmiss Hres Hkey Hthrew h' t.
  assert (Hfirst : ∀ h0,
    enable h0 = true → state h0 = valid → cache_miss h0 d →
    resolve h0 d = (Some paths, logs) →
    mjoin (engineCache h0 !! String.concat "|" paths) = None →
    run (makeChangeSet (Some d)) h0
    = (value None,
       set_validationCache (delete (TextDocument.uri d) (validationCache h0)) h0,
       t)).
  { intros h0 Hen0 Hst0 Hmiss0 Hres0 Hkey0. unfold run.
    rewrite makeChangeSet_miss by done. unfold miss.
    by rewrite Hres0, Hkey0, Hthrew. }
  split_and!; [by apply Hfirst|done|].
  rewrite Hfirst; try done.
  - unfold h'. cbn. by rewrite delete_delete_eq.
  - intros cached. unfold h'. cbn. by rewrite lookup_delete_eq.
Qed.

Lemma second_run_invokes d h paths logs engine :
  enable h = true → state h = valid →
  validationCache h !! TextDocument.uri d = None →
  resolve h d = (Some paths, logs) →
  mjoin (engineCache h !! String.concat "|" paths) = Some engine →
  Engine.makeChangeSet engine (TextDocument.uri d) (TextDocument.getText d) = None →
  run (makeChangeSet (Some d)) h
  = (value None, h,
     logs ++ [call_Engine_makeChangeSet
                (TextDocument.uri d) (TextDocument.getText d)]).
Proof.
  intros Hen Hst Hnone Hres Hkey Hnull. unfold run.
  rewrite makeChangeSet_miss; [|done|done|]; last first.
  { intros cached. by rewrite Hnone. }
  unfold miss, invoke. rewrite Hres, Hkey, Hnull.
  rewrite (delete_id _ _ Hnone). by destruct h.
Qed.

Lemma mjoin_lookup (engines : gmap string (option Engine.t)) key engine :
  mjoin (engines !! key) = Some engine → engines !! key = Some (Some engine).
Proof. by destruct (engines !! key) as [[?|]|]; intros [= ->]. Qed.

Lemma makeChangeSet_other_entries od d h c h' t other :
  od = Some d →
  run (makeChangeSet od) h = (c, h', t) →
  other ≠ TextDocument.uri d →
  validationCache h' !! other = validationCache h !! other.
Proof.
  intros -> H Hne. unfold run in H. by_paths H.
  all: by rewrite ?lookup_insert_ne, ?lookup_delete_ne.
Qed.

Lemma makeChangeSet_entry d h c h' t entry :
  run (makeChangeSet (Some d)) h = (c, h', t) →
  validationCache h' !! TextDocument.uri d = Some entry →
  (validationCache h !! TextDocument.uri d = Some entry ∧ invocations t = [])
  ∨ (invocations t = [(TextDocument.uri d, TextDocument.getText d)]
     ∧ ChangeSetCache.version entry = TextDocument.version d
     ∧ c = value (Some (ChangeSetCache.changeSet entry))
     ∧ ∃ key engine,
         engineCache h' !! key = Some (Some engine)
         ∧ Engine.makeChangeSet engine
             (TextDocument.uri d) (TextDocument.getText d)
           = Some (ChangeSetCache.changeSet entry)).
Proof.
  intros H. unfold run in H. by_paths H; unfold_on.
  all: rewrite ?lookup_insert_eq, ?lookup_delete_eq; intros Hentry;
    simplify_eq/=; auto.
  all: right; rewrite ?invocations_app; cbn.
  all: repeat match goal with Hq : invocations _ = [] |- _ => rewrite Hq end.
  all: split_and!; try done.
  all: eexists _, _; split; [|eassumption].
  all: first [apply lookup_insert_eq|apply mjoin_lookup; eassumption].
Qed.

Lemma makeChangeSet_null_not_cached d h h' t :
  run (makeChangeSet (Some d)) h = (value None, h', t) →
  invocations t ≠ [] →
  validationCache h' !! TextDocument.uri d = None
  ∧ ∃ t2,
      run (makeChangeSet (Some d)) h' = (value None, h', t2)
      ∧ invocations t2 = [(TextDocument.uri d, TextDocument.getText d)].
Proof.
  intros H. unfold run in H. by_paths H; unfold_on; try done.
  all: rewrite ?invocations_app; cbn.
  all: repeat match goal with Hq : invocations _ = [] |- _ => rewrite Hq end.
  all: try done; intros _.
  all: split; [by apply lookup_delete_eq|].
  all: eexists; split;
    [eapply second_run_invokes; try eassumption; cbn;
       by first [apply lookup_delete_eq|rewrite lookup_insert_eq]|].
  all: rewrite invocations_app; cbn.
  all: by repeat match goal with Hq : invocations _ = [] |- _ => rewrite Hq end.
Qed.

(** C10. What a validation does to the validation cache.  It touches
    the document's entry only.  An entry present afterwards is either
    the one that was there, in which case the engine was not invoked,
    or it holds the document's version with the change set that the one
    invocation of the engine (an engine of the engine cache) returned,
    which is also the result.  When the engine was invoked and the
    result is null, the document has no entry afterwards, and the same
    validation run again invokes the engine again. *)
Theorem validation_cache_holds_engine_results d h c h' t :
  run (makeChangeSet (Some d)) h = (c, h', t) →
  let uri := TextDocument.uri d in
  let content := TextDocument.getText d in
  (∀ other, other ≠ uri →
     validationCache h' !! other = validationCache h !! other)
  ∧ (∀ entry,
       validationCache h' !! uri = Some entry →
       (validationCache h !! uri = Some entry ∧ invocations t = [])
       ∨ (invocations t = [(uri, content)]
          ∧ ChangeSetCache.version entry = TextDocument.version d
          ∧ c = value (Some (ChangeSetCache.changeSet entry))
          ∧ ∃ key engine,
              engineCache h' !! key = Some (Some engine)
              ∧ Engine.makeChangeSet engine uri content
                = Some (ChangeSetCache.changeSet entry)))
  ∧ (invocations t ≠ [] → c = value None →
     validationCache h' !! uri = None
     ∧ ∃ t2,
         run (makeChangeSet (Some d)) h' = (value None, h', t2)
         ∧ invocations t2 = [(uri, content)]).
Proof.
  intros H uri content. split_and!.
  - intros other Hne. by eapply makeChangeSet_other_entries.
  - intros entry Hentry. by eapply makeChangeSet_entry.
  - intros Hinvoked ->. by eapply makeChangeSet_null_not_cached.
Qed.

(** ** Further properties of the methods *)

(** *** What a validation touches *)

Lemma makeChangeSet_frame od h c h' t :
  run (makeChangeSet od) h = (c, h', t) →
  enable h' = enable h ∧ configPaths h' = configPaths h
  ∧ state h' = state h ∧ documents h' = documents h.
Proof. unfold run. intros H. by by_paths H. Qed.

Lemma makeChangeSet_publishes_nothing od h c h' t :
  run (makeChangeSet od) h = (c, h', t) → published t = [].
Proof.
  unfold run. intros H. rewrite makeChangeSet_by_paths in H.
  unfold makeChangeSet_paths, miss, invoke, resolve in H.
  repeat case_match; by simplify_eq/=.
Qed.

Lemma resolve_constructions h d paths logs :
  resolve h d = (paths, logs) → constructions logs = [].
Proof.
  unfold resolve. intros H. by repeat case_match; simplify_eq/=.
Qed.

Lemma resolve_shown h d paths logs :
  resolve h d = (paths, logs) → shown logs = [].
Proof.
  unfold resolve. intros H. by repeat case_match; simplify_eq/=.
Qed.

Lemma constructions_app t1 t2 :
  constructions (t1 ++ t2) = constructions t1 ++ constructions t2.
Proof. apply omap_app. Qed.

Lemma shown_app t1 t2 : shown (t1 ++ t2) = shown t1 ++ shown t2.
Proof. apply omap_app. Qed.

(** A validation that reaches the engine, run forward. *)
Lemma makeChangeSet_with_engine d h paths logs engine :
  enable h = true → state h = valid → cache_miss h d →
  resolve h d = (Some paths, logs) →
  mjoin (engineCache h !! String.concat "|" paths) = Some engine →
  let result :=
    Engine.makeChangeSet engine (TextDocument.uri d) (TextDocument.getText d) in
  ∃ h',
    run (makeChangeSet (Some d)) h
    = (value result, h',
       logs ++ [call_Engine_makeChangeSet
                  (TextDocument.uri d) (TextDocument.getText d)])
    ∧ engineCache h' = engineCache h
    ∧ validationCache h' !! TextDocument.uri d
      = ChangeSetCache.mk (TextDocument.version d) <$> result.
Proof.
  intros Hen Hst Hmiss Hres Hkey result. unfold run.
  rewrite makeChangeSet_miss by done. unfold miss, invoke.
  rewrite Hres, Hkey. fold result. destruct result as [changeSet|].
  - eexists. split_and!; [reflexivity|done|]. cbn. by rewrite lookup_insert_eq.
  - eexists. split_and!; [reflexivity|done|]. cbn. by rewrite lookup_delete_eq.
Qed.

(** A validation that has reached the engine, read backwards. *)
Lemma makeChangeSet_invoked d h c h' t :
  run (makeChangeSet (Some d)) h = (c, h', t) →
  invocations t ≠ [] →
  ∃ paths logs engine,
    enable h = true ∧ state h = valid
    ∧ resolve h d = (Some paths, logs)
    ∧ engineCache h' !! String.concat "|" paths = Some (Some engine)
    ∧ c = value (Engine.makeChangeSet engine
                   (TextDocument.uri d) (TextDocument.getText d)).
Proof.
  intros H. unfold run in H. by_paths H; unfold_on; try done.
  all: rewrite ?invocations_app; cbn.
  all: repeat match goal with Hq : invocations _ = [] |- _ => rewrite Hq end.
  all: try done; intros _.
  all: eexists _, _, _; split_and!; try done.
  all: try (by apply mjoin_lookup).
  all: try (by apply lookup_insert_eq).
  all: try (by match goal with Hr : Engine.makeChangeSet _ _ _ = _ |- _ =>
                 rewrite Hr end).
Qed.

(** X1. After a validation of a document by an enabled handler in a
    valid state, however it ends (a result, null or an exception), the
    cache holds no entry of another version for that document. *)
Theorem validation_leaves_no_stale_entry d h c h' t entry :
  enable h = true → state h = valid →
  run (makeChangeSet (Some d)) h = (c, h', t) →
  validationCache h' !! TextDocument.uri d = Some entry →
  ChangeSetCache.version entry = TextDocument.version d.
Proof.
  intros Hen Hst H. unfold run in H. by_paths H.
  all: rewrite ?lookup_insert_eq, ?lookup_delete_eq; intros Hentry;
    simplify_eq/=; try done.
  - rewrite Hen, Hst in *. cbn in *. by rewrite bool_decide_eq_false_2 in *.
  - by match goal with Hv : bool_decide _ = true |- _ =>
         apply bool_decide_eq_true_1 in Hv end.
Qed.

(** X2. When a validation has invoked the engine for a document and the
    document then comes with another version (and any text), the next
    validation invokes the engine exactly once, on the new text, builds
    no engine, and leaves the cache with the new version and that
    result, or with no entry when the result is null. *)
Theorem new_version_is_validated_afresh d h cs h' t d2 :
  run (makeChangeSet (Some d)) h = (value (Some cs), h', t) →
  invocations t ≠ [] →
  TextDocument.uri d2 = TextDocument.uri d →
  TextDocument.version d2 ≠ TextDocument.version d →
  ∃ result h'' t2,
    run (makeChangeSet (Some d2)) h' = (value result, h'', t2)
    ∧ invocations t2 = [(TextDocument.uri d2, TextDocument.getText d2)]
    ∧ constructions t2 = []
    ∧ validationCache h'' !! TextDocument.uri d
      = ChangeSetCache.mk (TextDocument.version d2) <$> result.
Proof.
  intros Hrun Hinvoked Huri Hversion.
  destruct (makeChangeSet_invoked _ _ _ _ _ Hrun Hinvoked)
    as (paths & logs & engine & Hen & Hst & Hres & Hengine & _).
  destruct (makeChangeSet_frame _ _ _ _ _ Hrun) as (Hen' & Hpaths' & Hst' & _).
  destruct (makeChangeSet_Some _ _ _ _ _ Hrun) as (? & [= <-] & _ & _ & Hentry).
  destruct (makeChangeSet_with_engine d2 h' paths logs engine)
    as (h'' & Hrun2 & _ & Hentry2).
  - congruence.
  - congruence.
  - intros cached. rewrite Huri, Hentry. by intros [= <-].
  - unfold resolve in *. by rewrite Huri, Hpaths'.
  - by rewrite Hengine.
  - eexists _, h'', _. split_and!; [exact Hrun2|..].
    + rewrite invocations_app, (resolve_logs _ _ _ _ Hres). done.
    + rewrite constructions_app, (resolve_constructions _ _ _ _ Hres). done.
    + by rewrite <- Huri.
Qed.

(** X3. A validation never removes or replaces an engine of the engine
    cache, and it calls [fromYAMLFilePaths] at most once, only for a path
    list whose key holds no engine. *)
Theorem engines_are_kept_and_built_on_a_miss od h :
  let r := run (makeChangeSet od) h in
  (∀ key engine,
     engineCache h !! key = Some (Some engine) →
     engineCache r.1.2 !! key = Some (Some engine))
  ∧ (constructions r.2 = []
     ∨ ∃ paths,
         constructions r.2 = [paths]
         ∧ mjoin (engineCache h !! String.concat "|" paths) = None).
Proof.
  intros r. destruct r as [[c h'] t] eqn:Hr. subst r. cbn.
  unfold run in Hr. by_paths Hr; unfold_on.
  all: repeat match goal with
       | Hres : resolve _ _ = _ |- _ =>
           pose proof (resolve_constructions _ _ _ _ Hres); clear Hres
       end.
  all: rewrite ?constructions_app; cbn.
  all: repeat match goal with Hq : constructions _ = [] |- _ => rewrite Hq end.
  all: cbn; split; [|by eauto].
  all: intros key engine' Hkey; try done.
  all: rewrite lookup_insert_ne; [done|].
  all: intros <-.
  all: match goal with Hm : mjoin _ = None |- _ => by rewrite Hkey in Hm end.
Qed.

(** X4. With a configured rule path, once a validation has invoked the
    engine, no later validation of any document calls
    [fromYAMLFilePaths]: the one engine of the configuration serves
    them all. *)
Theorem one_engine_serves_all_documents d h c h' t od2 :
  truthy (configPaths h ≫= head) = true →
  run (makeChangeSet (Some d)) h = (c, h', t) →
  invocations t ≠ [] →
  constructions (run (makeChangeSet od2) h').2 = [].
Proof.
  intros Hglobal Hrun Hinvoked.
  destruct (makeChangeSet_invoked _ _ _ _ _ Hrun Hinvoked)
    as (paths & logs & engine & _ & _ & Hres & Hengine & _).
  destruct (makeChangeSet_frame _ _ _ _ _ Hrun) as (_ & Hpaths' & _ & _).
  unfold resolve in Hres. rewrite Hglobal in Hres. injection Hres as <- <-.
  destruct (run (makeChangeSet od2) h') as [[c2 h2] t2] eqn:Hrun2. cbn.
  unfold run in Hrun2. rewrite makeChangeSet_by_paths in Hrun2.
  unfold makeChangeSet_paths, miss, invoke, resolve in Hrun2.
  rewrite Hpaths', Hglobal, Hengine in Hrun2. cbn in Hrun2.
  by repeat case_match; simplify_eq/=.
Qed.

(** X5. A validation publishes no diagnostics and submits no edit.  It
    shows the user nothing, or exactly one error message, and then it
    has returned null without invoking an engine and without touching
    the engine cache. *)
Theorem validation_reports_at_most_one_error od h :
  let r := run (makeChangeSet od) h in
  published r.2 = [] ∧ submitted r.2 = []
  ∧ (shown r.2 = []
     ∨ ∃ message,
         shown r.2 = [message]
         ∧ r.1.1 = value None
         ∧ invocations r.2 = []
         ∧ engineCache r.1.2 = engineCache h).
Proof.
  intros r. destruct r as [[c h'] t] eqn:Hr. subst r. cbn.
  split_and!;
    [by eapply makeChangeSet_publishes_nothing
    |by eapply makeChangeSet_submits_nothing|].
  unfold run in Hr. by_paths Hr; unfold_on.
  all: repeat match goal with
       | Hres : resolve _ _ = _ |- _ =>
           pose proof (resolve_shown _ _ _ _ Hres); clear Hres
       end.
  all: rewrite ?shown_app, ?invocations_app; cbn.
  all: repeat match goal with
       | Hq : shown _ = [] |- _ => rewrite Hq
       | Hq : invocations _ = [] |- _ => rewrite Hq
       end.
  all: cbn; eauto 7.
Qed.

(** *** Diagnostics *)

Lemma map__pure {R A B} (xs : list A) (cb : A → Body R B)
    (f : A → B) (g : A → Event) h :
  (∀ x, cb x h = (normal (f x), h, [g x])) →
  map_ xs cb h = (normal (map f xs), h, map g xs).
Proof.
  intros Hcb. induction xs as [|x xs IH]; [done|].
  cbn [map_ map]. unfold bind, pure. rewrite Hcb, IH. cbn.
  by rewrite app_nil_r.
Qed.

Lemma published_app t1 t2 : published (t1 ++ t2) = published t1 ++ published t2.
Proof. apply omap_app. Qed.

Lemma submitted_app t1 t2 : submitted (t1 ++ t2) = submitted t1 ++ submitted t2.
Proof. apply omap_app. Qed.

Lemma log_diff_quiet diffs :
  published (map (λ diff, console_log (log_diff diff)) diffs) = []
  ∧ submitted (map (λ diff, console_log (log_diff diff)) diffs) = []
  ∧ shown (map (λ diff, console_log (log_diff diff)) diffs) = [].
Proof. by induction diffs. Qed.

Lemma validateAndSendDiagnostics_run d h r h' t :
  run (makeChangeSet (Some d)) h = (value r, h', t) →
  ∃ diagnostics,
    run (validateAndSendDiagnostics d) h
    = (value tt, h',
       t ++ map (λ diff, console_log (log_diff diff)) (corrections r)
         ++ [sendDiagnostics (TextDocument.uri d) diagnostics])
    ∧ Forall2 (flags d) (corrections r) diagnostics.
Proof.
  intros Hrun. unfold validateAndSendDiagnostics, makeDiagnostic.
  unfold run at 1, call at 1 2, bind at 1 2.
  rewrite makeChangeSet_run, Hrun. cbn [completion].
  destruct r as [changeSet|]; cbn [corrections].
  - unfold bind at 1.
    erewrite map__pure; last first.
    { intros diff. unfold bind, emit, pure. cbn. reflexivity. }
    unfold return_, emit. cbn. eexists. split.
    { by rewrite app_nil_r, <- app_assoc. }
    induction (ChangeSet.diffs changeSet) as [|diff diffs IH]; cbn;
      constructor; [|done].
    split_and!; try done. exists (or_else (Diff.newText diff) "??").
    split_and!; [apply or_else_replacement|..].
    + intros hint (rule & raw & -> & -> & ->) Hhint. cbn.
      by rewrite (bool_decide_eq_false_2 _ Hhint).
    + intros Hnone.
      destruct (Diff.rule diff) as [[[[[hint|]]|]]|] eqn:Hrule; cbn; try done.
      assert (hint = "") as -> by (apply Hnone; by eexists _, _).
      by rewrite (bool_decide_eq_true_2 _ (eq_refl "")).
  - unfold return_, emit. cbn. exists [].
    split; [by rewrite app_nil_r|constructor].
Qed.

(** X6. When a validation of a document yields a result or null,
    [validateAndSendDiagnostics] publishes exactly one diagnostic list,
    for that document: one warning of source "prh" per correction, in
    order (none for null), each at the positions of the correction's
    two offsets, with the arrow, the replacement or the marker, and the
    rule's hint when it has one.  It submits no edit and shows nothing
    beyond what the validation shows. *)
Theorem diagnostics_one_per_correction d h r h' t :
  run (makeChangeSet (Some d)) h = (value r, h', t) →
  ∃ diagnostics t',
    run (validateAndSendDiagnostics d) h = (value tt, h', t')
    ∧ published t' = [(TextDocument.uri d, diagnostics)]
    ∧ Forall2 (flags d) (corrections r) diagnostics
    ∧ submitted t' = []
    ∧ shown t' = shown t.
Proof.
  intros Hrun.
  destruct (validateAndSendDiagnostics_run _ _ _ _ _ Hrun)
    as (diagnostics & Hsend & Hflags).
  destruct (log_diff_quiet (corrections r)) as (Hp & Hs & Hsh).
  eexists diagnostics, _. split_and!; [exact Hsend|..|done| |].
  - rewrite !published_app, Hp, (makeChangeSet_publishes_nothing _ _ _ _ _ Hrun).
    done.
  - rewrite !submitted_app, Hs, (makeChangeSet_submits_nothing _ _ _ _ _ Hrun).
    done.
  - rewrite !shown_app, Hsh. cbn. by rewrite app_nil_r.
Qed.

(** *** Commands and code actions *)

Lemma onCodeAction_run h params d r h' t :
  documents_get h (CodeActionParams.textDocument_uri params) = Some d →
  run (makeChangeSet (Some d)) h = (value r, h', t) →
  ∃ actions,
    run (onCodeAction params) h = (value actions, h', t)
    ∧ Forall2 (offers d (CodeActionParams.range params))
        (filter (exact_span d (CodeActionParams.range params)) (corrections r))
        actions.
Proof.
  intros Hdoc Hval. unfold onCodeAction.
  unfold run, call at 1, bind, this. cbn -[documents_get makeChangeSet].
  rewrite Hdoc, makeChangeSet_run, Hval. destruct r as [changeSet|]; exec; cbn.
  - eexists. split; [by rewrite app_nil_r|].
    rewrite (List_filter_decide _
               (exact_span d (CodeActionParams.range params))); last first.
    { intros diff. unfold exact_span.
      by rewrite andb_true_iff, !bool_decide_eq_true. }
    induction (filter _ _) as [|diff diffs IH]; cbn; constructor; [|done].
    exists (or_else (Diff.newText diff) "??").
    split; [apply or_else_replacement|done].
  - eexists. split; [by rewrite app_nil_r|constructor].
Qed.

Lemma onCodeAction_throws h params d e h' t :
  documents_get h (CodeActionParams.textDocument_uri params) = Some d →
  run (makeChangeSet (Some d)) h = (exception e, h', t) →
  run (onCodeAction params) h = (exception e, h', t).
Proof.
  intros Hdoc Hval. unfold onCodeAction.
  unfold run, call at 1, bind, this. cbn -[documents_get makeChangeSet].
  by rewrite Hdoc, makeChangeSet_run, Hval.
Qed.

Lemma replace_run h command p rest d :
  command = "replace" →
  documents_get h (ReplaceCommandParams.uri p) = Some d →
  run (onExecuteCommand
         (ExecuteCommandParams.mk command (Some (arg_params p :: rest)))) h
  = (value tt, h,
     console_log (log_commandParams p)
     :: (if bool_decide (ReplaceCommandParams.version p = TextDocument.version d)
         then [applyEdit (WorkspaceEdit.mk [
                 TextDocumentEdit.mk (TextDocument.uri d) (TextDocument.version d)
                   [ReplaceCommandParams.textEdit p]])]
         else [console_log (log_version_mismatch
                 (Some (ReplaceCommandParams.version p)) (TextDocument.version d))])).
Proof.
  intros -> Hdoc. unfold onExecuteCommand, executeReplace, first_argument. cbn.
  rewrite (bool_decide_eq_true_2 _ (eq_refl "replace")).
  exec. cbn -[documents_get]. rewrite Hdoc. cbn.
  by destruct (bool_decide _).
Qed.

Lemma Forall2_elem_of_r {A B} (P : A → B → Prop) xs ys y :
  Forall2 P xs ys → y ∈ ys → ∃ x, x ∈ xs ∧ P x y.
Proof.
  induction 1 as [|x0 y0 xs ys Hxy _ IH]; [by intros ?%elem_of_nil|].
  intros [->|Hin]%elem_of_cons.
  - exists x0. split; [by left|done].
  - destruct (IH Hin) as (x & ? & ?). exists x. split; [by right|done].
Qed.

(** X7. The action offered for a correction, executed as offered.  The
    action comes from a correction of the document's validation result
    that spans the requested range, and carries that correction's
    replacement.  While the document is at the version the action was
    offered for, the command submits exactly one edit, for that document
    and version, whose range is the requested range and whose text is
    that replacement; once the document is at another version the same
    command returns without submitting anything. *)
Theorem offered_action_round_trip h params d actions h' t action :
  documents_get h (CodeActionParams.textDocument_uri params) = Some d →
  run (onCodeAction params) h = (value actions, h', t) →
  action ∈ actions →
  let range := CodeActionParams.range params in
  let request :=
    ExecuteCommandParams.mk (Command.command action)
      (Some (arg_params <$> Command.arguments action)) in
  (∃ r diff text,
     run (makeChangeSet (Some d)) h = (value r, h', t)
     ∧ diff ∈ corrections r
     ∧ exact_span d range diff
     ∧ replacement diff text
     ∧ action
       = Command.mk ("→ " +:+ text) "replace"
           [ReplaceCommandParams.mk (TextDocument.uri d) (TextDocument.version d)
              (TextEdit.mk range text)]
     ∧ run (onExecuteCommand request) h'
       = (value tt, h',
          [console_log (log_commandParams
             (ReplaceCommandParams.mk (TextDocument.uri d) (TextDocument.version d)
                (TextEdit.mk range text)));
           applyEdit (WorkspaceEdit.mk [
             TextDocumentEdit.mk (TextDocument.uri d) (TextDocument.version d)
               [TextEdit.mk range text]])]))
  ∧ (∀ docs d2,
       documents_get (set_documents docs h') (TextDocument.uri d) = Some d2 →
       TextDocument.version d2 ≠ TextDocument.version d →
       (run (onExecuteCommand request) (set_documents docs h')).1.1 = value tt
       ∧ submitted (run (onExecuteCommand request) (set_documents docs h')).2 = []).
Proof.
  intros Hdoc Hrun Hin range request.
  destruct (run (makeChangeSet (Some d)) h) as [[[r|e] h2] t2] eqn:Hval.
  - destruct (onCodeAction_run _ _ _ _ _ _ Hdoc Hval) as (actions' & Hrun' & Hoffers).
    rewrite Hrun in Hrun'. injection Hrun' as <- <- <-.
    destruct (Forall2_elem_of_r _ _ _ _ Hoffers Hin)
      as (diff & [Hspan Hdiff]%list_elem_of_filter & text & Hrepl & ->).
    destruct (makeChangeSet_frame _ _ _ _ _ Hval) as (_ & _ & _ & Hdocs).
    pose proof (documents_get_uri _ _ _ Hdoc) as Huri.
    assert (Hdoc' : documents_get h' (TextDocument.uri d) = Some d).
    { unfold documents_get in *. by rewrite Hdocs, Huri. }
    subst request. cbn [Command.command Command.arguments fmap list_fmap].
    split.
    + exists r, diff, text. split_and!; [done..|].
      rewrite (replace_run h' _ _ _ d); [|done|done]. cbn.
      by rewrite (bool_decide_eq_true_2 _ (eq_refl (TextDocument.version d))).
    + intros docs d2 Hdoc2 Hversion.
      rewrite (replace_run _ _ _ _ d2); [|done|done]. cbn.
      by rewrite bool_decide_eq_false_2.
  - rewrite (onCodeAction_throws _ _ _ _ _ _ Hdoc Hval) in Hrun. done.
Qed.

(** X8. [executeReplace] never changes a field of the handler, whatever
    its arguments and however it ends: it validates nothing, publishes
    and shows nothing and submits at most one edit.  For an argument
    object it throws exactly when the target document is not open, and
    then it has submitted nothing. *)
Theorem replace_changes_nothing args h :
  let r := run (executeReplace args) h in
  r.1.2 = h
  ∧ published r.2 = [] ∧ shown r.2 = []
  ∧ invocations r.2 = [] ∧ constructions r.2 = []
  ∧ (length (submitted r.2) ≤ 1)%nat
  ∧ ∀ p,
      first_argument args = Some (arg_params p) →
      ((∃ e, r.1.1 = exception e)
       ↔ documents_get h (ReplaceCommandParams.uri p) = None)
      ∧ (documents_get h (ReplaceCommandParams.uri p) = None →
         submitted r.2 = []).
Proof.
  unfold executeReplace. destruct (first_argument args) as [[p|s]|]; exec;
    cbn -[documents_get].
  - destruct (documents_get h (ReplaceCommandParams.uri p)) as [d|] eqn:Hdoc;
      cbn; [destruct (bool_decide _); cbn|].
    all: split_and!; try done; try lia.
    all: intros p' [= <-]; rewrite Hdoc; split; [|done].
    all: split; [by intros [e [=]]|done || by eauto].
  - destruct (documents_get h "undefined") as [d|]; cbn.
    all: split_and!; try done; lia.
  - split_and!; try done; cbn; lia.
Qed.

(** X9. A code action or "applyAllQuickFixes" for a document that is
    not open: while the handler is disabled or invalid both return
    empty-handed; otherwise both throw before anything is logged, built
    or changed. *)
Theorem closed_document_is_not_guarded h params args uri rest :
  CodeActionParams.textDocument_uri params = uri →
  ExecuteCommandParams.arguments args = Some (arg_string uri :: rest) →
  uri ≠ "" →
  documents_get h uri = None →
  (enable h = false ∨ state h = invalid →
   run (onCodeAction params) h = (value [], h, [])
   ∧ run (executeApplyAllQuickFixes args) h = (value tt, h, []))
  ∧ (enable h = true → state h = valid →
     ∃ e,
       run (onCodeAction params) h = (exception e, h, [])
       ∧ run (executeApplyAllQuickFixes args) h = (exception e, h, [])).
Proof.
  intros Hparams Hargs Huri Hdoc.
  assert (Hcode : ∀ c h2 t2,
    run (makeChangeSet None) h = (c, h2, t2) →
    (∀ changeSet, c ≠ value (Some changeSet)) →
    run (onCodeAction params) h
    = (match c with value _ => value [] | exception e => exception e end, h2, t2)).
  { intros c h2 t2 Hrun Hnull. unfold onCodeAction.
    unfold run at 1, call at 1, bind, this. cbn -[documents_get makeChangeSet].
    rewrite Hparams, Hdoc, makeChangeSet_run, Hrun.
    destruct c as [[changeSet|]|e]; [by destruct (Hnull changeSet)|..];
      exec; cbn; by rewrite ?app_nil_r. }
  assert (Happly : ∀ c h2 t2,
    run (makeChangeSet None) h = (c, h2, t2) →
    (∀ changeSet, c ≠ value (Some changeSet)) →
    run (executeApplyAllQuickFixes args) h
    = (match c with value _ => value tt | exception e => exception e end, h2, t2)).
  { intros c h2 t2 Hrun Hnull. unfold executeApplyAllQuickFixes, first_argument.
    rewrite Hargs. cbn -[documents_get makeChangeSet].
    rewrite (bool_decide_eq_false_2 _ Huri).
    unfold run at 1, call at 1, bind, this. cbn -[documents_get makeChangeSet].
    rewrite Hdoc, makeChangeSet_run, Hrun.
    destruct c as [[changeSet|]|e]; [by destruct (Hnull changeSet)|..];
      exec; cbn; by rewrite ?app_nil_r. }
  split.
  - intros Hoff.
    assert (Hrun : run (makeChangeSet None) h = (value None, h, [])).
    { unfold run. by rewrite makeChangeSet_disabled. }
    by rewrite (Hcode _ _ _ Hrun), (Happly _ _ _ Hrun).
  - intros Hen Hst. eexists.
    assert (Hrun : run (makeChangeSet None) h
                   = (exception (an_Error
                        "TypeError: Cannot read property of undefined: uri"),
                      h, [])).
    { unfold run. rewrite makeChangeSet_by_paths. unfold makeChangeSet_paths.
      by rewrite Hen, Hst. }
    by rewrite (Hcode _ _ _ Hrun), (Happly _ _ _ Hrun).
Qed.

(** X10. Commands with nothing to do.  "replace" and
    "applyAllQuickFixes" without arguments, with an empty argument list
    or with an empty string as first argument return at once: no field
    changes and nothing is logged or sent.  Any other command name only
    writes one console line. *)
Theorem idle_commands args h :
  (ExecuteCommandParams.command args = "replace"
   ∨ ExecuteCommandParams.command args = "applyAllQuickFixes" →
   ExecuteCommandParams.arguments args = None
   ∨ ExecuteCommandParams.arguments args = Some []
   ∨ (∃ rest, ExecuteCommandParams.arguments args = Some (arg_string "" :: rest)) →
   run (onExecuteCommand args) h = (value tt, h, []))
  ∧ (ExecuteCommandParams.command args ≠ "replace" →
     ExecuteCommandParams.command args ≠ "applyAllQuickFixes" →
     run (onExecuteCommand args) h
     = (value tt, h,
        [console_log (log_unknown_command (ExecuteCommandParams.command args))])).
Proof.
  unfold onExecuteCommand, executeReplace, executeApplyAllQuickFixes,
    first_argument.
  split.
  - intros Hcommand Harguments.
    assert (ExecuteCommandParams.arguments args ≫= head = None
            ∨ ExecuteCommandParams.arguments args ≫= head = Some (arg_string ""))
      as [-> | ->].
    { destruct Harguments as [-> | [-> | [rest ->]]]; auto. }
    all: destruct Hcommand as [-> | ->]; cbn.
    all: rewrite ?(bool_decide_eq_true_2 _ (eq_refl "replace")),
           ?(bool_decide_eq_true_2 _ (eq_refl "applyAllQuickFixes")),
           ?(bool_decide_eq_true_2 _ (eq_refl "")).
    all: try rewrite (bool_decide_eq_false_2 ("applyAllQuickFixes" = "replace"))
           by done.
    all: done.
  - intros Hreplace Hall.
    by rewrite (bool_decide_eq_false_2 _ Hreplace), (bool_decide_eq_false_2 _ Hall).
Qed.

Lemma applyAllQuickFixes_run h args uri rest d r h' t :
  ExecuteCommandParams.arguments args = Some (arg_string uri :: rest) →
  uri ≠ "" →
  documents_get h uri = Some d →
  run (makeChangeSet (Some d)) h = (value r, h', t) →
  run (executeApplyAllQuickFixes args) h
  = (value tt, h',
     t ++ match r with
          | Some changeSet =>
              [applyEdit (WorkspaceEdit.mk [
                 TextDocumentEdit.mk (TextDocument.uri d) (TextDocument.version d)
                   (map (getTextEditFromDiff d) (ChangeSet.diffs changeSet))])]
          | None => []
          end).
Proof.
  intros Hargs Huri Hdoc Hval. unfold executeApplyAllQuickFixes, first_argument.
  rewrite Hargs. cbn -[documents_get makeChangeSet].
  rewrite (bool_decide_eq_false_2 _ Huri).
  unfold run, call at 1, bind, this. cbn -[documents_get makeChangeSet].
  rewrite Hdoc, makeChangeSet_run, Hval. by destruct r; exec; cbn.
Qed.

(** X11. The batch of "applyAllQuickFixes" and the diagnostics published
    for the same validation result mark the same places: the ranges of
    the edits are, one by one, the ranges of the diagnostics. *)
Theorem quick_fixes_edit_the_flagged_ranges h args uri rest d changeSet h' t :
  ExecuteCommandParams.arguments args = Some (arg_string uri :: rest) →
  uri ≠ "" →
  documents_get h uri = Some d →
  run (makeChangeSet (Some d)) h = (value (Some changeSet), h', t) →
  ∃ diagnostics edits,
    published (run (validateAndSendDiagnostics d) h).2
    = [(TextDocument.uri d, diagnostics)]
    ∧ submitted (run (executeApplyAllQuickFixes args) h).2
      = [WorkspaceEdit.mk [
           TextDocumentEdit.mk (TextDocument.uri d) (TextDocument.version d) edits]]
    ∧ length edits = length (ChangeSet.diffs changeSet)
    ∧ map TextEdit.range edits = map Diagnostic.range diagnostics.
Proof.
  intros Hargs Huri Hdoc Hval.
  destruct (validateAndSendDiagnostics_run _ _ _ _ _ Hval)
    as (diagnostics & -> & Hflags).
  rewrite (applyAllQuickFixes_run _ _ _ _ _ _ _ _ Hargs Huri Hdoc Hval).
  destruct (log_diff_quiet (corrections (Some changeSet))) as (Hp & _ & _).
  exists diagnostics, (map (getTextEditFromDiff d) (ChangeSet.diffs changeSet)).
  cbn [snd]. split_and!.
  - rewrite !published_app, Hp, (makeChangeSet_publishes_nothing _ _ _ _ _ Hval).
    done.
  - rewrite submitted_app, (makeChangeSet_submits_nothing _ _ _ _ _ Hval). done.
  - by rewrite length_map.
  - cbn [corrections] in Hflags.
    induction Hflags as [|diff diagnostic diffs diagnostics' Hflag _ IH]; [done|].
    cbn. destruct Hflag as (_ & _ & -> & _). by rewrite IH.
Qed.

(** *** Watched files *)

Lemma some_rejects {R A} (xs : list A) (cb : A → Body R bool) h :
  Forall (λ x, cb x h = (normal false, h, [])) xs →
  some xs cb h = (normal false, h, []).
Proof.
  induction 1 as [|x xs Hx _ IH]; [done|].
  cbn [some]. unfold bind. by rewrite Hx, IH.
Qed.

Lemma keys_decide h uri_path (keys : list string) :
  decides (R:=unit) matched_line
    (some keys (λ concatenatedRulePaths,
       some (split_bar concatenatedRulePaths) (λ rulePath,
         if endsWith uri_path rulePath
         then emit (console_log (log_matched uri_path rulePath)) ;;; pure true
         else pure false))) h.
Proof.
  apply some_decides, Forall_forall. intros key _.
  apply some_decides, Forall_forall. intros rulePath _.
  destruct (endsWith uri_path rulePath); [right|by left].
  eexists. split; [by eexists _, rulePath|done].
Qed.

Lemma onDidChangeWatchedFiles_cases change h :
  run (onDidChangeWatchedFiles change) h
  = (value tt, h, [console_log (log_onDidChangeWatchedFiles change)])
  ∨ ∃ matched h1 t1,
      matched_line matched
      ∧ run checkConfig h = (value tt, h1, t1)
      ∧ run (onDidChangeWatchedFiles change) h
        = after (console_log (log_onDidChangeWatchedFiles change) :: matched ++ t1)
            (run (for_of (documents h1) validateAndSendDiagnostics) h1).
Proof.
  unfold onDidChangeWatchedFiles.
  match goal with |- context [some _ ?cb] => set (callback := cb) end.
  assert (Hcb : ∀ u, decides matched_line (callback u) h).
  { intros u. subst callback. cbn beta zeta.
    destruct (keys_decide h (Uri.path (Uri_parse u))
                (map_to_list (engineCache h)).*1) as [Hnone|(t & Ht & Hsome)].
    - left. unfold bind at 1, this. by rewrite Hnone.
    - right. exists t. split; [done|]. unfold bind at 1, this. by rewrite Hsome. }
  destruct (some_decides (DidChangeWatchedFilesParams.changes change)
              callback h matched_line) as [Hnone|(matched & Hmatched & Hsome)].
  { apply Forall_forall. intros u _. apply Hcb. }
  - left. unfold run, call, bind at 1 2, emit. by rewrite Hnone.
  - right. destruct (checkConfig_clears h) as (s0 & t1 & Hcheck).
    eexists matched, _, t1. split_and!; [done|exact Hcheck|].
    unfold run at 1, call at 1, bind at 1 2, emit. rewrite Hsome.
    unfold bind, this. unfold checkConfig at 1. rewrite call_run.
    fold (@checkConfig Empty_set). rewrite Hcheck. cbn.
    rewrite for_of_validate_run.
    destruct (run (for_of _ _) _) as [[[[]|e] h2] t2]; cbn;
      by rewrite ?app_nil_r, <- ?app_assoc.
Qed.

(** X12. A watched-file notification in which no changed file's path
    ends with a rule path of a key of the engine cache only writes its
    console line: nothing is checked, cleared or validated.  In
    particular, while the engine cache is empty watched files are
    ignored. *)
Theorem unmatched_watched_files_are_ignored change h :
  (∀ change_uri key rulePath,
     change_uri ∈ DidChangeWatchedFilesParams.changes change →
     is_Some (engineCache h !! key) →
     rulePath ∈ split_bar key →
     endsWith (Uri.path (Uri_parse change_uri)) rulePath = false) →
  run (onDidChangeWatchedFiles change) h
  = (value tt, h, [console_log (log_onDidChangeWatchedFiles change)]).
Proof.
  intros Hnone. unfold onDidChangeWatchedFiles.
  unfold run, call, bind at 1 2, emit.
  rewrite some_rejects; [done|].
  apply Forall_forall. intros change_uri Hchange.
  unfold bind, this. rewrite some_rejects; [done|].
  apply Forall_forall. intros key [engine Hkey]%list_elem_of_fmap.
  destruct engine as [key' engine], Hkey as [-> Hkey%elem_of_map_to_list].
  rewrite some_rejects; [done|].
  apply Forall_forall. intros rulePath Hrule.
  by rewrite (Hnone change_uri key' rulePath).
Qed.

(** *** Keys of the engine cache *)

Lemma split_bar_bar_free s : bar_free s = true → split_bar s = [s].
Proof.
  induction s as [|c s IH]; [done|]. cbn [bar_free split_bar].
  intros [Hc%negb_true_iff%bool_decide_eq_false_1 Hs]%andb_true_iff.
  by rewrite (bool_decide_eq_false_2 _ Hc), (IH Hs).
Qed.

Lemma split_bar_append s rest :
  bar_free s = true →
  split_bar (s +:+ String "|" rest) = s :: split_bar rest.
Proof.
  induction s as [|c s IH]; [done|].
  change (String c s +:+ String "|" rest) with (String c (s +:+ String "|" rest)).
  cbn [bar_free split_bar].
  intros [Hc%negb_true_iff%bool_decide_eq_false_1 Hs]%andb_true_iff.
  by rewrite (bool_decide_eq_false_2 _ Hc), (IH Hs).
Qed.

Lemma split_bar_concat (paths : list string) :
  paths ≠ [] →
  Forall (λ path, bar_free path = true) paths →
  split_bar (String.concat "|" paths) = paths.
Proof.
  intros Hne Hfree. induction Hfree as [|path paths Hpath Hfree IH]; [done|].
  destruct paths as [|path' paths].
  - by apply split_bar_bar_free.
  - change (String.concat "|" (path :: path' :: paths))
      with (path +:+ String "|" (String.concat "|" (path' :: paths))).
    by rewrite split_bar_append, IH.
Qed.

Lemma split_bar_nonempty s : split_bar s ≠ [].
Proof.
  destruct s as [|c s]; [done|]. cbn [split_bar].
  destruct (bool_decide _); [done|]. by destruct (split_bar s).
Qed.

(** X13. Joining rule paths with a bar and splitting at bars are
    inverse to each other.  Splitting any key and joining the pieces
    gives the key back; joining a non-empty list of paths, none of which
    contains a bar, and splitting the key gives the paths back, so the
    watched-file handler sees exactly the rule paths an engine was built
    from. *)
Theorem key_and_paths_round_trip :
  (∀ key, String.concat "|" (split_bar key) = key)
  ∧ (∀ paths,
       paths ≠ [] →
       Forall (λ path, bar_free path = true) paths →
       split_bar (String.concat "|" paths) = paths).
Proof.
  split; [|apply split_bar_concat].
  induction key as [|c key IH]; [done|]. cbn [split_bar].
  destruct (bool_decide (c = "|"%char)) eqn:Hc.
  - apply bool_decide_eq_true_1 in Hc as ->.
    pose proof (split_bar_nonempty key) as Hne.
    destruct (split_bar key) as [|piece pieces]; [done|].
    change (String "|" (String.concat "|" (piece :: pieces)) = String "|" key).
    by rewrite IH.
  - pose proof (split_bar_nonempty key) as Hne.
    destruct (split_bar key) as [|piece pieces]; [done|].
    rewrite <- IH. by destruct pieces.
Qed.

(** *** What every request keeps *)

Lemma run_completion {A} (m : Body Empty_set A) h :
  m h = completion (run m h).
Proof. unfold run, completion. by destruct (m h) as [[[a|[]|e] h'] t]. Qed.

Lemma validateAndSendDiagnostics_state d h :
  (run (validateAndSendDiagnostics d) h).1.2
  = (run (makeChangeSet (Some d)) h).1.2.
Proof.
  destruct (run (makeChangeSet (Some d)) h) as [[[r|e] h2] t2] eqn:Hval.
  - by destruct (validateAndSendDiagnostics_run _ _ _ _ _ Hval) as (ds & -> & _).
  - unfold validateAndSendDiagnostics, makeDiagnostic.
    unfold run at 1, call at 1 2, bind at 1 2.
    by rewrite makeChangeSet_run, Hval.
Qed.

Lemma for_of_validate_keeps (P : Handler → Prop) docs h :
  (∀ od h, P h → P (run (makeChangeSet od) h).1.2) →
  P h → P (run (for_of docs validateAndSendDiagnostics) h).1.2.
Proof.
  intros Hkeep. revert h. induction docs as [|d docs IH]; intros h HP; [done|].
  cbn [for_of]. unfold run at 1, bind.
  rewrite (run_completion (validateAndSendDiagnostics d)).
  pose proof (Hkeep (Some d) h HP) as HP1.
  rewrite <- validateAndSendDiagnostics_state in HP1.
  destruct (run (validateAndSendDiagnostics d) h) as [[[[]|e] h1] t1]; cbn in *;
    [|done].
  specialize (IH h1 HP1).
  rewrite (run_completion (for_of docs validateAndSendDiagnostics)).
  by destruct (run (for_of docs validateAndSendDiagnostics) h1)
    as [[[[]|e] h2] t2].
Qed.

Lemma onCodeAction_state params h :
  (run (onCodeAction params) h).1.2
  = (run (makeChangeSet
            (documents_get h (CodeActionParams.textDocument_uri params))) h).1.2.
Proof.
  unfold onCodeAction.
  unfold run at 1, call at 1, bind, this. cbn -[documents_get makeChangeSet].
  rewrite makeChangeSet_run.
  destruct (run (makeChangeSet _) h) as [[[[changeSet|]|e] h2] t2]; cbn;
    [|done..].
  by destruct (documents_get h _).
Qed.

Lemma executeReplace_state args h : (run (executeReplace args) h).1.2 = h.
Proof.
  unfold executeReplace. destruct (first_argument args) as [[p|s]|]; exec;
    cbn -[documents_get]; [| |done].
  - destruct (documents_get h (ReplaceCommandParams.uri p)) as [d|]; cbn;
      [by destruct (bool_decide _)|done].
  - by destruct (documents_get h "undefined").
Qed.

Lemma executeApplyAllQuickFixes_state args h :
  (run (executeApplyAllQuickFixes args) h).1.2 = h
  ∨ ∃ od,
      (run (executeApplyAllQuickFixes args) h).1.2
      = (run (makeChangeSet od) h).1.2.
Proof.
  unfold executeApplyAllQuickFixes.
  destruct (first_argument args) as [a|]; [right|by left].
  exists (documents_get h match a with
                          | arg_string s => s
                          | arg_params _ => "[object Object]"
                          end).
  unfold run at 1, call at 1, bind, this.
  cbn -[documents_get makeChangeSet]. rewrite makeChangeSet_run.
  destruct (run (makeChangeSet _) h) as [[[[changeSet|]|e] h2] t2]; cbn;
    [|done..].
  by destruct (documents_get h _).
Qed.

Lemma executeReplace_completion {R} args h :
  executeReplace (R:=R) args h = completion (run (executeReplace args) h).
Proof. apply call_run. Qed.

Lemma executeApplyAllQuickFixes_completion {R} args h :
  executeApplyAllQuickFixes (R:=R) args h
  = completion (run (executeApplyAllQuickFixes args) h).
Proof. apply call_run. Qed.

Lemma validateAndSendDiagnostics_completion {R} d h :
  validateAndSendDiagnostics (R:=R) d h
  = completion (run (validateAndSendDiagnostics d) h).
Proof. apply call_run. Qed.

Lemma onExecuteCommand_state args h :
  (run (onExecuteCommand args) h).1.2 = h
  ∨ ∃ od, (run (onExecuteCommand args) h).1.2 = (run (makeChangeSet od) h).1.2.
Proof.
  unfold onExecuteCommand.
  destruct (bool_decide (ExecuteCommandParams.command args = "replace")).
  - left. unfold run at 1, call at 1.
    rewrite executeReplace_completion.
    pose proof (executeReplace_state args h) as Hst.
    by destruct (run (executeReplace args) h) as [[[[]|e] h2] t2].
  - destruct (bool_decide _); [|by left].
    destruct (executeApplyAllQuickFixes_state args h) as [Hst|[od Hst]];
      [left|right; exists od].
    all: unfold run at 1, call at 1.
    all: rewrite executeApplyAllQuickFixes_completion.
    all: by destruct (run (executeApplyAllQuickFixes args) h)
           as [[[[]|e] h2] t2].
Qed.

Lemma dispatch_keeps (P : Handler → Prop) request h :
  stable P → P h → P (dispatch request h).1.
Proof.
  intros (Hvalidate & Hcheck & _) HP.
  destruct request as [settings|change|params|args|document]; cbn [dispatch fst].
  - set (h0 := set_configPaths
                 (Some (default [] (PrhSettings.configFiles settings)))
                 (set_enable (default false (PrhSettings.enable settings)) h)).
    destruct (checkConfig_clears h0) as (s & t1 & Hrun).
    rewrite (onDidChangeConfiguration_run settings h _ _ Hrun).
    pose proof (for_of_validate_keeps P (documents (set_state s (cleared h0)))
                  _ Hvalidate (Hcheck h0 s)) as Hkept.
    by destruct (run (for_of _ _) _) as [[? ?] ?].
  - destruct (onDidChangeWatchedFiles_cases change h)
      as [->|(matched & h1 & t1 & _ & Hrun & ->)]; [done|].
    destruct (checkConfig_clears h) as (s & t1' & Hrun').
    rewrite Hrun' in Hrun. injection Hrun as <- <-.
    pose proof (for_of_validate_keeps P (documents (set_state s (cleared h)))
                  _ Hvalidate (Hcheck h s)) as Hkept.
    by destruct (run (for_of _ _) _) as [[? ?] ?].
  - rewrite onCodeAction_state. by apply Hvalidate.
  - destruct (onExecuteCommand_state args h) as [->|[od ->]];
      [done|by apply Hvalidate].
  - unfold onDidChangeContent. unfold run at 1, call at 1.
    rewrite validateAndSendDiagnostics_completion.
    pose proof (Hvalidate (Some document) h HP) as Hkept.
    rewrite <- validateAndSendDiagnostics_state in Hkept.
    by destruct (run (validateAndSendDiagnostics document) h)
      as [[[[]|e] h2] t2].
Qed.

Lemma reachable_keeps (P : Handler → Prop) h :
  stable P → (∀ docs, P (new_Handler docs)) → reachable h → P h.
Proof.
  intros Hstable Hnew [docs Hsteps]. revert h Hsteps.
  apply rtc_ind_r; [apply Hnew|]. intros h1 h2 _ Hstep IH.
  destruct Hstep as [request h1|docs' h1].
  - by apply dispatch_keeps.
  - by apply Hstable.
Qed.

Lemma quiet_when_off_stable : stable quiet_when_off.
Proof.
  split_and!.
  - intros od h Hquiet.
    destruct (negb (enable h) || bool_decide (state h = invalid)) eqn:Hon.
    + assert (enable h = false ∨ state h = invalid) as Hoff.
      { apply orb_true_iff in Hon as [Hen%negb_true_iff|Hst%bool_decide_eq_true_1];
          auto. }
      unfold run. by rewrite (makeChangeSet_disabled _ _ Hoff).
    + apply state_not_invalid in Hon as [Hen Hst].
      destruct (run (makeChangeSet od) h) as [[c h'] t] eqn:Hrun.
      destruct (makeChangeSet_frame _ _ _ _ _ Hrun) as (Hen' & _ & Hst' & _).
      cbn. intros [Hoff|Hoff]; congruence.
  - by intros h s _.
  - intros docs h Hquiet. exact Hquiet.
Qed.

Lemma engines_built_stable : stable engines_built.
Proof.
  split_and!.
  - intros od h Hbuilt. destruct (run (makeChangeSet od) h) as [[c h'] t] eqn:Hrun.
    cbn. unfold run in Hrun. intros key engine.
    by_paths Hrun; try apply Hbuilt.
    all: match goal with
         | |- <[?k := _]> _ !! ?key' = _ → _ =>
             destruct (decide (key' = k)) as [->|Hother];
             [rewrite lookup_insert_eq|by rewrite lookup_insert_ne; [apply Hbuilt|]]
         end.
    all: intros [= <-]; eauto.
  - intros h s key engine. cbn. by rewrite lookup_empty.
  - intros docs h Hbuilt. exact Hbuilt.
Qed.

(** X14. In every handler the server can reach from its construction,
    whatever requests came in and however the open documents changed,
    both caches are empty while validation is switched off or the
    configuration is invalid. *)
Theorem caches_are_empty_while_off h :
  reachable h →
  enable h = false ∨ state h = invalid →
  engineCache h = ∅ ∧ validationCache h = ∅.
Proof.
  intros Hreach. apply (reachable_keeps quiet_when_off); [| |done].
  - apply quiet_when_off_stable.
  - intros docs [Hoff|Hoff]; [done|]. cbn in Hoff. discriminate.
Qed.

(** X15. In every handler the server can reach, each engine of the
    engine cache is the one [fromYAMLFilePaths] builds from rule paths
    that, joined with bars, give its key. *)
Theorem cached_engines_are_built_from_their_key h key engine :
  reachable h →
  engineCache h !! key = Some (Some engine) →
  ∃ paths,
    key = String.concat "|" paths ∧ fromYAMLFilePaths paths = built engine.
Proof.
  intros Hreach. revert key engine.
  apply (reachable_keeps engines_built); [| |done].
  - apply engines_built_stable.
  - intros docs key engine. cbn. by rewrite lookup_empty.
Qed.

(** *** A handler that is switched off *)

Lemma validateAndSendDiagnostics_off {R} d h :
  enable h = false ∨ state h = invalid →
  validateAndSendDiagnostics (R:=R) d h
  = (normal tt, h, [sendDiagnostics (TextDocument.uri d) []]).
Proof.
  intros Hoff. unfold validateAndSendDiagnostics, makeDiagnostic.
  unfold call at 1 2, bind. by rewrite makeChangeSet_disabled.
Qed.

Lemma for_of_validate_off {R} docs h :
  enable h = false ∨ state h = invalid →
  for_of (R:=R) docs validateAndSendDiagnostics h
  = (normal tt, h, map (λ d, sendDiagnostics (TextDocument.uri d) []) docs).
Proof.
  intros Hoff. induction docs as [|d docs IH]; [done|].
  cbn [for_of map]. unfold bind.
  by rewrite (validateAndSendDiagnostics_off _ _ Hoff), IH.
Qed.

Lemma invocations_cleared docs :
  invocations (map (λ d, sendDiagnostics (TextDocument.uri d) []) docs) = [].
Proof. by induction docs. Qed.

Lemma constructions_cleared docs :
  constructions (map (λ d, sendDiagnostics (TextDocument.uri d) []) docs) = [].
Proof. by induction docs. Qed.

Lemma console_log_quiet message t :
  invocations (console_log message :: t) = invocations t
  ∧ constructions (console_log message :: t) = constructions t
  ∧ published (console_log message :: t) = published t.
Proof. done. Qed.

Lemma executeReplace_quiet args h :
  let r := run (executeReplace args) h in
  published r.2 = [] ∧ shown r.2 = []
  ∧ invocations r.2 = [] ∧ constructions r.2 = [].
Proof.
  unfold executeReplace. destruct (first_argument args) as [[p|s]|]; exec;
    cbn -[documents_get]; [| |done].
  - destruct (documents_get h (ReplaceCommandParams.uri p)) as [d|]; cbn;
      [by destruct (bool_decide _)|done].
  - by destruct (documents_get h "undefined").
Qed.

Lemma onExecuteCommand_off args h :
  enable h = false ∨ state h = invalid →
  let r := run (onExecuteCommand args) h in
  r.1.2 = h
  ∧ published r.2 = [] ∧ shown r.2 = []
  ∧ invocations r.2 = [] ∧ constructions r.2 = [].
Proof.
  intros Hoff. unfold onExecuteCommand.
  destruct (bool_decide (ExecuteCommandParams.command args = "replace")).
  - cbn zeta. unfold run, call. rewrite executeReplace_completion.
    pose proof (executeReplace_state args h) as Hst.
    pose proof (executeReplace_quiet args h) as Hquiet.
    by destruct (run (executeReplace args) h) as [[[[]|e] h2] t2].
  - destruct (bool_decide _); [|done].
    unfold executeApplyAllQuickFixes.
    destruct (first_argument args) as [a|]; [|done].
    unfold run, call, bind, this. by rewrite (makeChangeSet_disabled _ _ Hoff).
Qed.

Lemma map_to_list_keys_empty (h : Handler) :
  engineCache h = ∅ → (map_to_list (engineCache h)).*1 = [].
Proof. intros ->. by rewrite map_to_list_empty. Qed.

(** X16. A handler the server can reach and that is switched off, or
    whose configuration is invalid, is moved by configuration changes
    only: every other request leaves all its fields as they are, builds
    and invokes no engine and shows no message, and the only diagnostics
    published are the empty list for the document of a content change. *)
Theorem only_configuration_moves_an_off_handler request h :
  reachable h →
  enable h = false ∨ state h = invalid →
  (∀ settings, request ≠ didChangeConfiguration settings) →
  let r := dispatch request h in
  r.1 = h
  ∧ invocations r.2 = [] ∧ constructions r.2 = [] ∧ shown r.2 = []
  ∧ published r.2
    = match request with
      | didChangeContent document => [(TextDocument.uri document, [])]
      | _ => []
      end.
Proof.
  intros Hreach Hoff Hrequest.
  destruct (reachable_keeps quiet_when_off h quiet_when_off_stable) as [Hengines _];
    [|done|done|].
  { intros docs [Hen|Hst]; [done|]. cbn in Hst. discriminate. }
  destruct request as [settings|change|params|args|document]; cbn [dispatch].
  - by destruct (Hrequest settings).
  - assert (run (onDidChangeWatchedFiles change) h
            = (value tt, h, [console_log (log_onDidChangeWatchedFiles change)]))
      as ->; [|done].
    unfold onDidChangeWatchedFiles. unfold run, call, bind at 1 2, emit.
    rewrite some_rejects; [done|].
    apply Forall_forall. intros change_uri _. unfold bind, this.
    by rewrite (map_to_list_keys_empty _ Hengines).
  - assert (run (onCodeAction params) h = (value [], h, [])) as ->; [|done].
    unfold onCodeAction. unfold run, call, bind, this.
    by rewrite (makeChangeSet_disabled _ _ Hoff).
  - destruct (onExecuteCommand_off args h Hoff) as (? & ? & ? & ? & ?).
    by split_and!.
  - assert (run (onDidChangeContent document) h
            = (value tt, h, [sendDiagnostics (TextDocument.uri document) []]))
      as ->; [|done].
    unfold onDidChangeContent. unfold run, call.
    by rewrite (validateAndSendDiagnostics_off _ _ Hoff).
Qed.

(** X17. A configuration change that switches validation off, or names
    a rule file that does not exist, returns with both caches empty and
    without building or invoking an engine; the diagnostics it publishes
    are the empty list, for every open document and for nothing else. *)
Theorem configuration_that_switches_off settings h :
  default false (PrhSettings.enable settings) = false
  ∨ (∃ path,
       path ∈ default [] (PrhSettings.configFiles settings)
       ∧ existsSync path = false) →
  let r := run (onDidChangeConfiguration settings) h in
  r.1.1 = value tt
  ∧ engineCache r.1.2 = ∅ ∧ validationCache r.1.2 = ∅
  ∧ invocations r.2 = [] ∧ constructions r.2 = []
  ∧ ∀ uri diagnostics,
      (uri, diagnostics) ∈ published r.2
      ↔ diagnostics = [] ∧ ∃ d, d ∈ documents h ∧ TextDocument.uri d = uri.
Proof.
  intros Hsettings.
  set (h0 := set_configPaths
               (Some (default [] (PrhSettings.configFiles settings)))
               (set_enable (default false (PrhSettings.enable settings)) h)).
  destruct (checkConfig_cases h0) as [Hall Hmissing].
  assert (∃ s t1,
    run checkConfig h0 = (value tt, set_state s (cleared h0), t1)
    ∧ (enable h0 = false ∨ s = invalid)
    ∧ invocations t1 = [] ∧ constructions t1 = []
    ∧ (published t1 = []
       ∨ published t1 = map (λ d, (TextDocument.uri d, [])) (documents h)))
    as (s & t1 & Hcheck & Hoff & Hinv & Hcons & Hpub).
  { destruct (first_missing (default [] (PrhSettings.configFiles settings)))
      as [Hexist|(before & p & rest & Hpaths & Hbefore & Hp)].
    - destruct Hsettings as [Hen|(path & Hpath & Hgone)].
      + exists valid, [loadConfig_line h0]. rewrite (Hall Hexist).
        split_and!; auto.
      + rewrite Forall_forall in Hexist. specialize (Hexist path Hpath).
        congruence.
    - eexists invalid, _. rewrite (Hmissing _ _ _ Hpaths Hbefore Hp).
      split_and!; [done|by right|..].
      + rewrite !invocations_app, invocations_cleared.
        by destruct (decide (state h0 = invalid)).
      + rewrite !constructions_app, constructions_cleared.
        by destruct (decide (state h0 = invalid)).
      + right. rewrite !published_app, published_cleared.
        by destruct (decide (state h0 = invalid)). }
  cbn zeta. rewrite (onDidChangeConfiguration_run settings h _ _ Hcheck).
  unfold run. rewrite for_of_validate_off; last first.
  { destruct Hoff as [Hen| ->]; [by left|by right]. }
  cbn -[invocations constructions published].
  destruct (console_log_quiet (log_onDidChangeConfiguration settings)
              (t1 ++ map (λ d, sendDiagnostics (TextDocument.uri d) [])
                       (documents h))) as (-> & -> & ->).
  split_and!; [done..| | |].
  - by rewrite invocations_app, Hinv, invocations_cleared.
  - by rewrite constructions_app, Hcons, constructions_cleared.
  - intros uri diagnostics.
    rewrite published_app, published_cleared, elem_of_app, list_elem_of_fmap.
    split.
    + intros [Hfirst|(d & [= -> ->] & Hd)]; [|by eauto].
      destruct Hpub as [Hpub|Hpub]; rewrite Hpub in Hfirst;
        [by apply elem_of_nil in Hfirst|].
      apply list_elem_of_fmap in Hfirst as (d & [= -> ->] & Hd). by eauto.
    + intros [-> (d & Hd & <-)]. right. by exists d.
Qed.

(** X18. The rule files an engine was built from are watched.  After a
    validation that reached the engine, with rule paths none of which
    contains a bar, a watched-file notification naming a file whose path
    ends with one of these rule paths runs [checkConfig], which empties
    both caches, and validates the open documents again. *)
Theorem rule_files_of_an_engine_are_watched
    d h c h' t paths logs change change_uri path :
  run (makeChangeSet (Some d)) h = (c, h', t) →
  invocations t ≠ [] →
  resolve h d = (Some paths, logs) →
  Forall (λ path, bar_free path = true) paths →
  path ∈ paths →
  change_uri ∈ DidChangeWatchedFilesParams.changes change →
  endsWith (Uri.path (Uri_parse change_uri)) path = true →
  ∃ matched h1 t1,
    matched_line matched
    ∧ run checkConfig h' = (value tt, h1, t1)
    ∧ engineCache h1 = ∅ ∧ validationCache h1 = ∅
    ∧ run (onDidChangeWatchedFiles change) h'
      = after (console_log (log_onDidChangeWatchedFiles change) :: matched ++ t1)
          (run (for_of (documents h1) validateAndSendDiagnostics) h1).
Proof.
  intros Hrun Hinvoked Hres Hfree Hpath Hchange Hends.
  destruct (makeChangeSet_invoked _ _ _ _ _ Hrun Hinvoked)
    as (paths' & logs' & engine & _ & _ & Hres' & Hkey & _).
  rewrite Hres in Hres'. injection Hres' as <- <-.
  assert (paths ≠ []) as Hne by (by intros ->; apply elem_of_nil in Hpath).
  destruct (onDidChangeWatchedFiles_run change h' change_uri
              (String.concat "|" paths) path) as (matched & Hmatched & Hwatched);
    [done|by eexists|by rewrite split_bar_concat|done|].
  destruct (checkConfig_clears h') as (s & t1 & Hcheck).
  exists matched, (set_state s (cleared h')), t1.
  split_and!; [done|done|done|done|by apply Hwatched].
Qed.

(** *** Validating all open documents *)

Lemma validateAndSendDiagnostics_published d h c h' t :
  run (validateAndSendDiagnostics d) h = (c, h', t) →
  (c = value tt ∧ ∃ diagnostics, published t = [(TextDocument.uri d, diagnostics)])
  ∨ ((∃ e, c = exception e) ∧ published t = []).
Proof.
  destruct (run (makeChangeSet (Some d)) h) as [[[r|e] h2] t2] eqn:Hval.
  - destruct (validateAndSendDiagnostics_run _ _ _ _ _ Hval) as (ds & -> & _).
    intros [= <- <- <-]. left. split; [done|]. exists ds.
    rewrite !published_app, (makeChangeSet_publishes_nothing _ _ _ _ _ Hval).
    by destruct (log_diff_quiet (corrections r)) as (-> & _).
  - unfold validateAndSendDiagnostics, makeDiagnostic.
    unfold run at 1, call at 1 2, bind at 1 2.
    rewrite makeChangeSet_run, Hval. intros [= <- <- <-]. right.
    split; [by eexists|]. by apply (makeChangeSet_publishes_nothing _ _ _ _ _ Hval).
Qed.

Lemma for_of_validate_published docs h c h' t :
  run (for_of docs validateAndSendDiagnostics) h = (c, h', t) →
  (published t).*1 `prefix_of` (TextDocument.uri <$> docs)
  ∧ (c = value tt → (published t).*1 = TextDocument.uri <$> docs)
  ∧ (∀ e, c = exception e → (length (published t) < length docs)%nat).
Proof.
  revert h c h' t. induction docs as [|d docs IH]; intros h c h' t Hrun.
  { injection Hrun as <- <- <-. by split_and!. }
  cbn [for_of] in Hrun. unfold run, bind in Hrun.
  rewrite validateAndSendDiagnostics_completion in Hrun.
  destruct (run (validateAndSendDiagnostics d) h) as [[c1 h1] t1] eqn:Hd.
  destruct (validateAndSendDiagnostics_published _ _ _ _ _ Hd)
    as [[-> [ds Hpub]]|[[e ->] Hpub]]; cbn in Hrun.
  - rewrite for_of_validate_run in Hrun.
    destruct (run (for_of docs validateAndSendDiagnostics) h1)
      as [[c2 h2] t2] eqn:Hrest.
    destruct (IH _ _ _ _ Hrest) as (Hprefix & Hvalue & Hexception).
    assert (published t = (TextDocument.uri d, ds) :: published t2
            ∧ c = c2) as [Ht ->].
    { destruct c2 as [[]|e2]; cbn in Hrun; injection Hrun as <- <- <-.
      all: by rewrite published_app, Hpub. }
    rewrite Ht. cbn [fmap list_fmap length]. split_and!.
    + by apply prefix_cons.
    + intros Hc. by rewrite <- (Hvalue Hc).
    + intros e Hc. specialize (Hexception e Hc). lia.
  - injection Hrun as <- <- <-. rewrite Hpub. cbn. split_and!.
    + apply prefix_nil.
    + done.
    + intros _ _. lia.
Qed.

(** X19. A configuration change whose rule files all exist publishes
    diagnostics document by document, in the order of the open
    documents, once each.  When it returns every open document has got
    its list; when a validation throws, the documents from that one on
    get none. *)
Theorem configuration_change_publishes_in_order settings h :
  Forall (λ path, existsSync path = true)
    (default [] (PrhSettings.configFiles settings)) →
  let r := run (onDidChangeConfiguration settings) h in
  (published r.2).*1 `prefix_of` (TextDocument.uri <$> documents h)
  ∧ (r.1.1 = value tt → (published r.2).*1 = TextDocument.uri <$> documents h)
  ∧ (∀ e, r.1.1 = exception e →
       (length (published r.2) < length (documents h))%nat).
Proof.
  intros Hexist.
  set (h0 := set_configPaths
               (Some (default [] (PrhSettings.configFiles settings)))
               (set_enable (default false (PrhSettings.enable settings)) h)).
  destruct (checkConfig_cases h0) as [Hall _]. specialize (Hall Hexist).
  cbn zeta. rewrite (onDidChangeConfiguration_run settings h _ _ Hall).
  destruct (run (for_of _ _) _) as [[c h2] t2] eqn:Hrest.
  apply for_of_validate_published in Hrest.
  cbn -[published] in *.
  by destruct (console_log_quiet (log_onDidChangeConfiguration settings)
                 (loadConfig_line h0 :: t2)) as (_ & _ & ->).
Qed.

(** *** Initialisation and the commands *)

Lemma unknown_app t1 t2 : unknown (t1 ++ t2) = unknown t1 ++ unknown t2.
Proof. apply omap_app. Qed.

Lemma makeChangeSet_knows od h c h' t :
  run (makeChangeSet od) h = (c, h', t) → unknown t = [].
Proof.
  unfold run. intros H. rewrite makeChangeSet_by_paths in H.
  unfold makeChangeSet_paths, miss, invoke, resolve in H.
  repeat case_match; by simplify_eq/=.
Qed.

Lemma executeReplace_knows args h : unknown (run (executeReplace args) h).2 = [].
Proof.
  unfold executeReplace. destruct (first_argument args) as [[p|s]|]; exec;
    cbn -[documents_get]; [| |done].
  - destruct (documents_get h (ReplaceCommandParams.uri p)) as [d|]; cbn;
      [by destruct (bool_decide _)|done].
  - by destruct (documents_get h "undefined").
Qed.

Lemma executeApplyAllQuickFixes_knows args h :
  unknown (run (executeApplyAllQuickFixes args) h).2 = [].
Proof.
  unfold executeApplyAllQuickFixes.
  destruct (first_argument args) as [a|]; [|done].
  unfold run at 1, call at 1, bind, this.
  cbn -[documents_get makeChangeSet unknown]. rewrite makeChangeSet_run.
  destruct (run (makeChangeSet _) h) as [[[[changeSet|]|e] h2] t2] eqn:Hval.
  all: apply makeChangeSet_knows in Hval.
  all: cbn -[documents_get unknown]; rewrite ?app_nil_r; try done.
  destruct (documents_get h _); cbn -[unknown]; rewrite ?app_nil_r; [|done].
  by rewrite unknown_app, Hval.
Qed.

(** X20. Initialisation answers without touching the handler or
    sending anything, and announces code actions.  Every command a code
    action offers is among the commands announced, and every announced
    command is handled by [onExecuteCommand]; the commands it handles
    are "replace" and "applyAllQuickFixes" and no other. *)
Theorem announced_commands_are_handled initialize h :
  ∃ result,
    run (onInitialized initialize) h = (value result, h, [])
    ∧ ServerCapabilities.codeActionProvider
        (InitializeResult.capabilities result) = true
    ∧ (∀ params h0 actions h1 t action,
         run (onCodeAction params) h0 = (value actions, h1, t) →
         action ∈ actions →
         Command.command action ∈ advertised result)
    ∧ (∀ command, command ∈ advertised result → handled command)
    ∧ (∀ command,
         handled command
         ↔ command = "replace" ∨ command = "applyAllQuickFixes").
Proof.
  assert (Hhandled : ∀ command,
    handled command ↔ command = "replace" ∨ command = "applyAllQuickFixes").
  { intros command. split.
    - intros Hcommand.
      specialize (Hcommand (ExecuteCommandParams.mk command None) h eq_refl).
      unfold onExecuteCommand in Hcommand. cbn in Hcommand.
      destruct (bool_decide (command = "replace")) eqn:Hreplace;
        [left; by apply bool_decide_eq_true_1 in Hreplace|].
      destruct (bool_decide (command = "applyAllQuickFixes")) eqn:Hall;
        [right; by apply bool_decide_eq_true_1 in Hall|].
      discriminate.
    - intros Hcommand args h0 Hargs. unfold onExecuteCommand.
      rewrite Hargs. unfold run at 1, call at 1.
      destruct Hcommand as [-> | ->].
      + rewrite (bool_decide_eq_true_2 _ (eq_refl "replace")).
        rewrite executeReplace_completion.
        pose proof (executeReplace_knows args h0) as Hknown.
        by destruct (run (executeReplace args) h0) as [[[[]|e] h2] t2].
      + rewrite (bool_decide_eq_false_2 ("applyAllQuickFixes" = "replace"))
          by done.
        rewrite (bool_decide_eq_true_2 _ (eq_refl "applyAllQuickFixes")).
        rewrite executeApplyAllQuickFixes_completion.
        pose proof (executeApplyAllQuickFixes_knows args h0) as Hknown.
        by destruct (run (executeApplyAllQuickFixes args) h0)
          as [[[[]|e] h2] t2]. }
  eexists. split_and!; [reflexivity|done| | |done].
  - intros params h0 actions h1 t action Hrun Haction.
    unfold advertised. cbn. apply list_elem_of_singleton.
    unfold onCodeAction in Hrun.
    unfold run, call at 1, bind, this in Hrun.
    cbn -[documents_get makeChangeSet] in Hrun.
    rewrite makeChangeSet_run in Hrun.
    destruct (run (makeChangeSet _) h0) as [[[[changeSet|]|e] h2] t2];
      exec; cbn -[documents_get] in Hrun; simplify_eq/=;
      try (by apply elem_of_nil in Haction).
    all: destruct (documents_get h0 _) as [d|]; simplify_eq/=.
    all: by apply list_elem_of_fmap in Haction as (diff & -> & _).
  - intros command Hcommand. apply Hhandled. left.
    unfold advertised in Hcommand. cbn in Hcommand.
    by apply list_elem_of_singleton in Hcommand.
Qed.

End Handler.

(** ** Properties of the earlier version *)

Section Legacy_properties.

Import Legacy.

Context `{Library}.

Lemma legacy_call_run {R R' : Type} (dflt : R) (body : Body R unit) h :
  call (R':=R') dflt body h = completion (run (call dflt body) h).
Proof. unfold run, call, completion. by destruct (body h) as [[[]]]. Qed.

Lemma documentValidate_completion {R} od h :
  documentValidate (R:=R) od h = completion (run (documentValidate od) h).
Proof. apply legacy_call_run. Qed.

Lemma sendValidationDiagnostics_completion {R} d h :
  sendValidationDiagnostics (R:=R) d h
  = completion (run (sendValidationDiagnostics d) h).
Proof. apply legacy_call_run. Qed.

Lemma loadConfig_completion {R} h :
  loadConfig (R:=R) h = completion (run loadConfig h).
Proof. apply legacy_call_run. Qed.

Lemma documentValidate_off od h :
  engine h = None ∨ enable h = false →
  run (documentValidate od) h = (value None, h, []).
Proof.
  intros Hoff. unfold documentValidate, run, call, bind, this.
  destruct (engine h) as [e|]; [|done].
  destruct Hoff as [|Hen]; [done|]. by rewrite Hen.
Qed.

Lemma documentValidate_hit d h e cached :
  engine h = Some e → enable h = true →
  validationCache h !! TextDocument.uri d = Some (Some cached) →
  ChangeSetCache.version cached = TextDocument.version d →
  run (documentValidate (Some d)) h
  = (value (Some (ChangeSetCache.changeSet cached)), h, []).
Proof.
  intros He Hen Hcached Hversion.
  unfold documentValidate, run, call, bind, this, deref, pure, return_.
  rewrite He, Hen. cbn. rewrite Hcached. cbn.
  by rewrite (bool_decide_eq_true_2 _ Hversion).
Qed.

Lemma documentValidate_miss d h e :
  engine h = Some e → enable h = true →
  (∀ cached,
     validationCache h !! TextDocument.uri d = Some (Some cached) →
     ChangeSetCache.version cached ≠ TextDocument.version d) →
  let result :=
    Engine.makeChangeSet e (TextDocument.uri d) (TextDocument.getText d) in
  run (documentValidate (Some d)) h
  = (value result,
     set_validationCache
       (<[TextDocument.uri d := ChangeSetCache.mk (TextDocument.version d) <$> result]>
          (validationCache h)) h,
     [call_Engine_makeChangeSet (TextDocument.uri d) (TextDocument.getText d)]).
Proof.
  intros He Hen Hmiss result.
  unfold documentValidate, run, call, bind, this, deref, pure, return_, assign, emit.
  rewrite He, Hen. cbn.
  destruct (validationCache h !! TextDocument.uri d) as [[cached|]|] eqn:Hc; cbn.
  1: rewrite (bool_decide_eq_false_2 _ (Hmiss _ eq_refl)); cbn.
  all: fold result; destruct result as [changeSet|]; cbn; try done.
  all: by rewrite insert_insert_eq.
Qed.

Lemma sendValidationDiagnostics_run d h c h' t :
  run (documentValidate (Some d)) h = (c, h', t) →
  run (sendValidationDiagnostics d) h
  = (match c with value _ => value tt | exception e => exception e end,
     h',
     t ++ match c with
          | value (Some changeSet) =>
              [sendDiagnostics (TextDocument.uri d)
                 (map (diagnostic d) (ChangeSet.diffs changeSet))]
          | _ => []
          end).
Proof.
  intros Hrun. unfold sendValidationDiagnostics.
  unfold run at 1, call at 1, bind. rewrite documentValidate_completion, Hrun.
  destruct c as [[changeSet|]|e]; cbn; by rewrite ?app_nil_r.
Qed.

Lemma for_of_send_completion {R} docs h :
  for_of (R:=R) docs sendValidationDiagnostics h
  = completion (run (for_of docs sendValidationDiagnostics) h).
Proof.
  revert h. induction docs as [|d docs IH]; intros h; [done|].
  cbn [for_of]. unfold run, bind.
  rewrite !sendValidationDiagnostics_completion.
  destruct (run _ h) as [[[[]|e] h1] t1]; cbn; [|done].
  rewrite !IH. unfold run.
  by destruct (for_of docs sendValidationDiagnostics h1) as [[[[]|[]|e] h2] t2].
Qed.

Lemma for_of_send_off docs h :
  engine h = None ∨ enable h = false →
  run (for_of docs sendValidationDiagnostics) h = (value tt, h, []).
Proof.
  intros Hoff. induction docs as [|d docs IH]; [done|].
  cbn [for_of]. unfold run, bind.
  rewrite sendValidationDiagnostics_completion,
    (sendValidationDiagnostics_run _ _ _ _ _ (documentValidate_off _ _ Hoff)).
  cbn. rewrite for_of_send_completion, IH. done.
Qed.

Lemma loadConfig_built h e :
  fromYAMLFilePath (configPath h) = built e →
  let h1 := set_engine (Some e) (set_validationCache ∅ h) in
  run loadConfig h
  = after [console_log (log_loadConfig (configPath h));
           call_fromYAMLFilePath (configPath h)]
      (run (for_of (documents h1) sendValidationDiagnostics) h1).
Proof.
  intros Hbuilt h1. unfold loadConfig.
  unfold run at 1, call, bind, this, emit, assign. cbn. rewrite Hbuilt. cbn.
  fold h1. rewrite for_of_send_completion.
  by destruct (run _ h1) as [[[[]|e'] h2] t2].
Qed.

Lemma loadConfig_threw h e :
  fromYAMLFilePath (configPath h) = threw e →
  run loadConfig h
  = (exception e, set_validationCache ∅ h,
     [console_log (log_loadConfig (configPath h));
      call_fromYAMLFilePath (configPath h)]).
Proof.
  intros Hthrew. unfold loadConfig.
  unfold run, call, bind, this, emit, assign, throw. cbn. by rewrite Hthrew.
Qed.

Lemma legacy_onDidChangeConfiguration_run settings h :
  let h0 :=
    set_configPath (Some (or_else (PrhSettings.configFile settings) "prh.yml"))
      (set_enable (default false (PrhSettings.enable settings)) h) in
  run (onDidChangeConfiguration settings) h
  = after [console_log (log_onDidChangeConfiguration settings)]
      (run loadConfig h0).
Proof.
  intros h0. unfold onDidChangeConfiguration.
  unfold run at 1, call at 1, bind, emit, assign. fold h0.
  rewrite loadConfig_completion.
  by destruct (run loadConfig h0) as [[[[]|e] h1] t1].
Qed.

Lemma legacy_published_app t1 t2 :
  published (t1 ++ t2) = published t1 ++ published t2.
Proof. apply omap_app. Qed.

Lemma legacy_invocations_app t1 t2 :
  invocations (t1 ++ t2) = invocations t1 ++ invocations t2.
Proof. apply omap_app. Qed.

(** X21. A second validation of the same document returns what the
    first returned and changes no field.  When the first returned a
    change set the second comes from the cache and the engine is not
    invoked; when it returned null the cache holds null for the document
    and the engine is invoked again. *)
Theorem legacy_second_validation d h e :
  engine h = Some e → enable h = true →
  let r := run (documentValidate (Some d)) h in
  ∃ result,
    r.1.1 = value result
    ∧ validationCache r.1.2 !! TextDocument.uri d
      = Some (ChangeSetCache.mk (TextDocument.version d) <$> result)
    ∧ run (documentValidate (Some d)) r.1.2
      = (value result, r.1.2,
         match result with
         | Some _ => []
         | None => [call_Engine_makeChangeSet
                      (TextDocument.uri d) (TextDocument.getText d)]
         end).
Proof.
  intros He Hen.
  assert (Hfresh : ∀ h0,
    engine h0 = Some e → enable h0 = true →
    (∀ cached,
       validationCache h0 !! TextDocument.uri d = Some (Some cached) →
       ChangeSetCache.version cached ≠ TextDocument.version d) →
    let r := run (documentValidate (Some d)) h0 in
    ∃ result,
      r.1.1 = value result
      ∧ validationCache r.1.2 !! TextDocument.uri d
        = Some (ChangeSetCache.mk (TextDocument.version d) <$> result)
      ∧ run (documentValidate (Some d)) r.1.2
        = (value result, r.1.2,
           match result with
           | Some _ => []
           | None => [call_Engine_makeChangeSet
                        (TextDocument.uri d) (TextDocument.getText d)]
           end)).
  { intros h0 He0 Hen0 Hmiss. cbn zeta.
    rewrite (documentValidate_miss d h0 e He0 Hen0 Hmiss). cbn [fst snd].
    set (result := Engine.makeChangeSet e _ _).
    set (h1 := set_validationCache _ h0).
    assert (validationCache h1 !! TextDocument.uri d
            = Some (ChangeSetCache.mk (TextDocument.version d) <$> result))
      as Hentry by apply lookup_insert_eq.
    exists result. split_and!; [done|done|].
    destruct result as [changeSet|] eqn:Hresult.
    - by rewrite (documentValidate_hit d h1 e _ He0 Hen0 Hentry).
    - rewrite (documentValidate_miss d h1 e He0 Hen0); last first.
      { intros cached. rewrite Hentry. by intros [=]. }
      fold result. rewrite Hresult. unfold h1 at 2. cbn.
      by rewrite insert_insert_eq. }
  destruct (validationCache h !! TextDocument.uri d) as [[cached|]|] eqn:Hcached.
  - destruct (decide (ChangeSetCache.version cached = TextDocument.version d))
      as [Hversion|Hversion].
    + cbn zeta. rewrite (documentValidate_hit d h e _ He Hen Hcached Hversion).
      exists (Some (ChangeSetCache.changeSet cached)). cbn.
      split_and!; [done| |by apply (documentValidate_hit d h e)].
      rewrite Hcached, <- Hversion. by destruct cached.
    + apply Hfresh; [done..|]. intros cached'. rewrite Hcached.
      by intros [= <-].
  - apply Hfresh; [done..|]. intros cached'. by rewrite Hcached.
  - apply Hfresh; [done..|]. intros cached'. by rewrite Hcached.
Qed.

(** X22. The earlier version never takes diagnostics back.  A
    configuration change that switches validation off, with a rule file
    that loads, publishes nothing for any open document: it only logs,
    empties the cache and replaces the engine.  Afterwards a content
    change of any document is answered with nothing at all. *)
Theorem legacy_switching_off_publishes_nothing settings h e :
  default false (PrhSettings.enable settings) = false →
  fromYAMLFilePath (Some (or_else (PrhSettings.configFile settings) "prh.yml"))
  = built e →
  let h' :=
    mkHandler (Some e) false
      (Some (or_else (PrhSettings.configFile settings) "prh.yml"))
      (workspaceRoot h) ∅ (documents h) in
  run (onDidChangeConfiguration settings) h
  = (value tt, h',
     [console_log (log_onDidChangeConfiguration settings);
      console_log (log_loadConfig (configPath h'));
      call_fromYAMLFilePath (configPath h')])
  ∧ ∀ d, run (onDidChangeContent d) h' = (value tt, h', []).
Proof.
  intros Hoff Hbuilt h'. split.
  - rewrite legacy_onDidChangeConfiguration_run.
    rewrite (loadConfig_built _ e) by done.
    rewrite for_of_send_off by (right; exact Hoff).
    cbn. by rewrite Hoff.
  - intros d. unfold onDidChangeContent. unfold run at 1, call at 1.
    rewrite sendValidationDiagnostics_completion.
    rewrite (sendValidationDiagnostics_run d h' (value None) h' []);
      [done|].
    apply documentValidate_off. by right.
Qed.

(** X23. A rule file that fails to load leaves the previous engine in
    service.  The configuration change throws what [fromYAMLFilePath]
    threw, after the cache was emptied and the new settings were stored,
    and publishes nothing; when the new settings enable validation, the
    next validation of a document invokes the engine of the previous
    configuration. *)
Theorem legacy_failed_load_keeps_the_engine settings h e :
  fromYAMLFilePath (Some (or_else (PrhSettings.configFile settings) "prh.yml"))
  = threw e →
  let r := run (onDidChangeConfiguration settings) h in
  r.1.1 = exception e
  ∧ engine r.1.2 = engine h
  ∧ validationCache r.1.2 = ∅
  ∧ enable r.1.2 = default false (PrhSettings.enable settings)
  ∧ published r.2 = [] ∧ invocations r.2 = []
  ∧ ∀ previous d,
      engine h = Some previous →
      PrhSettings.enable settings = Some true →
      let r2 := run (documentValidate (Some d)) r.1.2 in
      r2.1.1
      = value (Engine.makeChangeSet previous
                 (TextDocument.uri d) (TextDocument.getText d))
      ∧ invocations r2.2 = [(TextDocument.uri d, TextDocument.getText d)].
Proof.
  intros Hthrew. cbn zeta.
  rewrite legacy_onDidChangeConfiguration_run.
  rewrite (loadConfig_threw _ e) by done. cbn.
  split_and!; [done..|].
  intros previous d Hprevious Henable.
  rewrite (documentValidate_miss d _ previous); cbn; [done|done|..].
  - by rewrite Henable.
  - intros cached. by rewrite lookup_empty.
Qed.

(** X24. With a workspace root, a watched-files notification loads the
    configuration again whatever files it names, the rule file or not,
    and even when it names none: the answer is that of [loadConfig].
    Without a workspace root it does nothing, and when [path.resolve]
    throws, the exception leaves the handler as it was. *)
Theorem legacy_watched_files_always_reload change h :
  (workspaceRoot h = None →
   run (onDidChangeWatchedFiles change) h = (value tt, h, []))
  ∧ (∀ root path,
       workspaceRoot h = Some root →
       path_resolve (Uri.path (Uri_parse root)) (configPath h) = resolved path →
       run (onDidChangeWatchedFiles change) h = run loadConfig h)
  ∧ (∀ root e,
       workspaceRoot h = Some root →
       path_resolve (Uri.path (Uri_parse root)) (configPath h) = failed e →
       run (onDidChangeWatchedFiles change) h = (exception e, h, [])).
Proof.
  unfold onDidChangeWatchedFiles. split_and!.
  - intros Hroot. unfold run, call, bind, this. by rewrite Hroot.
  - intros root path Hroot Hpath.
    unfold run at 1, call at 1, bind, this. rewrite Hroot, Hpath.
    unfold array_truthy, pure. rewrite loadConfig_completion.
    by destruct (run loadConfig h) as [[[[]|e] h1] t1].
  - intros root e Hroot Hpath.
    unfold run, call, bind, this, throw. by rewrite Hroot, Hpath.
Qed.

Lemma for_of_send_fresh e docs h :
  engine h = Some e → enable h = true →
  NoDup (TextDocument.uri <$> docs) →
  (∀ d, d ∈ docs → validationCache h !! TextDocument.uri d = None) →
  ∃ h',
    run (for_of docs sendValidationDiagnostics) h
    = (value tt, h',
       flat_map (λ d,
         call_Engine_makeChangeSet (TextDocument.uri d) (TextDocument.getText d)
         :: match report e d with
            | Some (uri, diagnostics) => [sendDiagnostics uri diagnostics]
            | None => []
            end) docs)
    ∧ engine h' = Some e.
Proof.
  intros He Hen. revert h He Hen.
  induction docs as [|d docs IH]; intros h He Hen Hdup Hfresh.
  { by exists h. }
  apply NoDup_cons in Hdup as [Hd Hdup].
  pose proof (documentValidate_miss d h e He Hen) as Hmiss.
  cbn zeta in Hmiss. rewrite Hfresh in Hmiss by left.
  specialize (Hmiss ltac:(by intros cached [=])).
  set (h1 := set_validationCache _ h) in Hmiss.
  destruct (IH h1) as (h' & Hrest & He'); [done..| |].
  { intros d' Hd'. unfold h1. cbn. rewrite lookup_insert_ne.
    - apply Hfresh. by right.
    - intros Huri. apply Hd. rewrite Huri.
      apply list_elem_of_fmap. by exists d'. }
  exists h'. split; [|done].
  cbn [for_of flat_map]. unfold run, bind.
  rewrite sendValidationDiagnostics_completion,
    (sendValidationDiagnostics_run _ _ _ _ _ Hmiss).
  cbn. rewrite for_of_send_completion, Hrest. cbn. unfold report.
  by destruct (Engine.makeChangeSet e _ _).
Qed.

Lemma reports_trace e docs :
  let t :=
    flat_map (λ d,
      call_Engine_makeChangeSet (TextDocument.uri d) (TextDocument.getText d)
      :: match report e d with
         | Some (uri, diagnostics) => [sendDiagnostics uri diagnostics]
         | None => []
         end) docs in
  invocations t = (λ d, (TextDocument.uri d, TextDocument.getText d)) <$> docs
  ∧ published t = omap (report e) docs.
Proof.
  induction docs as [|d docs [IHi IHp]]; [done|].
  cbn. rewrite <- IHi, <- IHp. by destruct (report e d) as [[uri diagnostics]|].
Qed.

(** X25. A configuration change that enables validation, with a rule
    file that loads and open documents of distinct uris, returns after
    invoking the new engine once per open document, in order, on the
    document's text; it publishes diagnostics for the documents the
    engine has a change set for, in order, and nothing for the others. *)
Theorem legacy_reload_reports_flagged_documents settings h e :
  PrhSettings.enable settings = Some true →
  fromYAMLFilePath (Some (or_else (PrhSettings.configFile settings) "prh.yml"))
  = built e →
  NoDup (TextDocument.uri <$> documents h) →
  ∃ h' t,
    run (onDidChangeConfiguration settings) h = (value tt, h', t)
    ∧ engine h' = Some e
    ∧ invocations t
      = (λ d, (TextDocument.uri d, TextDocument.getText d)) <$> documents h
    ∧ published t = omap (report e) (documents h).
Proof.
  intros Henable Hbuilt Hdup.
  rewrite legacy_onDidChangeConfiguration_run.
  rewrite (loadConfig_built _ e) by done. cbn [documents set_engine
    set_validationCache set_configPath set_enable].
  match goal with |- context [run _ ?h0] => set (h1 := h0) end.
  destruct (for_of_send_fresh e (documents h) h1) as (h' & -> & He');
    [done|by cbn; rewrite Henable|done|by intros d _; apply lookup_empty|].
  destruct (reports_trace e (documents h)) as [Hinvocations Hpublished].
  eexists h', _. by split_and!; [reflexivity|..].
Qed.


End Legacy_properties.

(** ** The properties on the fixture *)

Import Fixture.

Lemma validate_twice_returns_cached_witness :
  ∃ h' t,
    run (makeChangeSet getRuleFilePath fromYAMLFilePaths Uri_parse (Some document))
      (configured ["prh.yml"])
    = (value (Some flagged), h', t)
    ∧ invocations t = [("file:///work/a.md", "Use javascript, not Javascript.")]
    ∧ run (makeChangeSet getRuleFilePath fromYAMLFilePaths Uri_parse (Some document)) h'
      = (value (Some flagged), h', []).
Proof.
  pose (r := run (makeChangeSet getRuleFilePath fromYAMLFilePaths Uri_parse
                    (Some document)) (configured ["prh.yml"])).
  exists r.1.2, r.2. split_and!; [vm_compute; reflexivity..|].
  destruct (validate_twice_returns_cached getRuleFilePath fromYAMLFilePaths
              Uri_parse document (configured ["prh.yml"]) flagged r.1.2 r.2)
    as (t' & Hrun & -> & _); [vm_compute; reflexivity|exact Hrun].
Defined.

Lemma disabled_validation_clears_diagnostics_witness :
  run (validateAndSendDiagnostics getRuleFilePath fromYAMLFilePaths Uri_parse document)
    (new_Handler [document])
  = (value tt, new_Handler [document], [sendDiagnostics "file:///work/a.md" []]).
Proof.
  apply (disabled_validation_clears_diagnostics getRuleFilePath fromYAMLFilePaths
           Uri_parse document (new_Handler [document])).
  left. reflexivity.
Defined.

Lemma replace_checks_version_witness :
  let edit := TextEdit.mk (Range.mk (Position.mk 0 4) (Position.mk 0 14)) "JavaScript" in
  let current := ReplaceCommandParams.mk "file:///work/a.md" 1 edit in
  let stale := ReplaceCommandParams.mk "file:///work/a.md" 0 edit in
  let h := configured ["prh.yml"] in
  run (onExecuteCommand getRuleFilePath fromYAMLFilePaths Uri_parse
         (ExecuteCommandParams.mk "replace" (Some [arg_params stale]))) h
  = (value tt, h,
     [console_log (log_commandParams stale);
      console_log (log_version_mismatch (Some 0) 1)])
  ∧ run (onExecuteCommand getRuleFilePath fromYAMLFilePaths Uri_parse
           (ExecuteCommandParams.mk "replace" (Some [arg_params current]))) h
    = (value tt, h,
       [console_log (log_commandParams current);
        applyEdit (WorkspaceEdit.mk [
          TextDocumentEdit.mk "file:///work/a.md" 1 [edit]])]).
Proof.
  intros edit current stale h. split.
  - destruct (replace_checks_version getRuleFilePath fromYAMLFilePaths Uri_parse h
                (ExecuteCommandParams.mk "replace" (Some [arg_params stale]))
                stale [] document) as (_ & Hstale & _);
      [reflexivity..|].
    apply Hstale. vm_compute. discriminate.
  - destruct (replace_checks_version getRuleFilePath fromYAMLFilePaths Uri_parse h
                (ExecuteCommandParams.mk "replace" (Some [arg_params current]))
                current [] document) as (_ & _ & Hcurrent);
      [reflexivity..|].
    apply Hcurrent. reflexivity.
Defined.

Lemma config_events_clear_both_caches_witness :
  let h := mkHandler true (Some ["prh.yml"]) valid
             {["prh.yml" := Some engine]} ∅ [document] in
  let change := DidChangeWatchedFilesParams.mk ["file:///work/prh.yml"] in
  ∃ h1 t1 matched,
    matched_line matched
    ∧ run (checkConfig existsSync) h = (value tt, h1, t1)
    ∧ engineCache h1 = ∅ ∧ validationCache h1 = ∅
    ∧ run (onDidChangeWatchedFiles existsSync getRuleFilePath fromYAMLFilePaths
             Uri_parse change) h
      = after (console_log (log_onDidChangeWatchedFiles change) :: matched ++ t1)
          (run (for_of (documents h1)
                  (validateAndSendDiagnostics getRuleFilePath fromYAMLFilePaths
                     Uri_parse)) h1).
Proof.
  intros h change.
  apply (proj2 (config_events_clear_both_caches existsSync getRuleFilePath
                  fromYAMLFilePaths Uri_parse h)
           change "file:///work/prh.yml" "prh.yml" "prh.yml").
  - left.
  - exists (Some engine). vm_compute. reflexivity.
  - left.
  - vm_compute. reflexivity.
Defined.

Lemma construction_failure_is_reported_not_cached_witness :
  let h := configured ["broken.yml"] in
  run (makeChangeSet getRuleFilePath fromYAMLFilePaths Uri_parse (Some document)) h
  = (value None, h,
     [call_fromYAMLFilePaths ["broken.yml"];
      console_error (an_Error "bad indentation of a mapping entry");
      showErrorMessage
        "prh: `bad indentation of a mapping entry` from broken.yml"]).
Proof.
  intros h.
  destruct (construction_failure_is_reported_not_cached getRuleFilePath
              fromYAMLFilePaths Uri_parse document h ["broken.yml"] []
              "bad indentation of a mapping entry") as (Hrun & _ & _).
  - reflexivity.
  - reflexivity.
  - intros cached Hcached. vm_compute in Hcached. discriminate.
  - vm_compute. reflexivity.
  - vm_compute. reflexivity.
  - vm_compute. reflexivity.
  - rewrite Hrun. vm_compute. reflexivity.
Defined.


Lemma codeAction_exact_span_witness :
  let h := configured ["prh.yml"] in
  let range := Range.mk (Position.mk 0 4) (Position.mk 0 14) in
  let params := CodeActionParams.mk "file:///work/a.md" range in
  ∃ actions,
    (run (onCodeAction getRuleFilePath fromYAMLFilePaths Uri_parse params) h).1.1
    = value actions
    ∧ Forall2 (offers document range)
        (filter (exact_span document range) (ChangeSet.diffs flagged)) actions.
Proof.
  intros h range params.
  pose (r := run (makeChangeSet getRuleFilePath fromYAMLFilePaths Uri_parse
                    (Some document)) h).
  destruct (codeAction_exact_span getRuleFilePath fromYAMLFilePaths Uri_parse
              h params document (Some flagged) r.1.2 r.2)
    as (actions & Hrun & Hactions).
  - vm_compute. reflexivity.
  - vm_compute. reflexivity.
  - exists actions. rewrite Hrun. split; [reflexivity|assumption].
Defined.

Lemma checkConfig_sets_state_witness :
  let h := mkHandler true (Some ["prh.yml"; "rules.yml"]) valid
             {["prh.yml" := Some engine]} ∅ [document; scratch] in
  ∃ t,
    run (checkConfig existsSync) h = (value tt, set_state invalid (cleared h), t)
    ∧ shown t = [not_found_warning "rules.yml"]
    ∧ published t = [("file:///work/a.md", []); ("untitled:Untitled-1", [])].
Proof.
  intros h.
  apply (proj2 (checkConfig_sets_state existsSync h) ["prh.yml"] "rules.yml" []).
  - reflexivity.
  - repeat constructor.
  - reflexivity.
Defined.

(** C8, as the spec words it, fails: after a first configuration change
    with a missing rule file the state is invalid, and [checkConfig] run
    again with the file still missing shows no warning. *)
Lemma checkConfig_warning_counterexample :
  let settings := PrhSettings.mk (Some true) (Some ["rules.yml"]) in
  let h :=
    (run (onDidChangeConfiguration existsSync getRuleFilePath fromYAMLFilePaths
            Uri_parse settings) (new_Handler [document])).1.2 in
  configPaths h = Some ["rules.yml"]
  ∧ existsSync "rules.yml" = false
  ∧ state h = invalid
  ∧ (run (checkConfig existsSync) h).1 = (value tt, h)
  ∧ shown (run (checkConfig existsSync) h).2 = [].
Proof. vm_compute. repeat split. Qed.

Lemma unresolved_rule_set_is_silent_witness :
  let h := configured [] in
  ∃ h' t,
    run (makeChangeSet getRuleFilePath fromYAMLFilePaths Uri_parse (Some scratch)) h
    = (value None, h', t)
    ∧ (t = [] ∨ t = [console_log (log_rule_file_not_found_for "untitled:Untitled-1")])
    ∧ shown t = []
    ∧ engineCache h' = engineCache h
    ∧ run (validateAndSendDiagnostics getRuleFilePath fromYAMLFilePaths Uri_parse
             scratch) h
      = (value tt, h', t ++ [sendDiagnostics "untitled:Untitled-1" []]).
Proof.
  intros h.
  apply (unresolved_rule_set_is_silent getRuleFilePath fromYAMLFilePaths Uri_parse
           scratch h).
  - reflexivity.
  - left. vm_compute. discriminate.
  - intros cached Hcached. vm_compute in Hcached. discriminate.
Defined.

Lemma validation_cache_holds_engine_results_witness :
  let h := configured ["quiet.yml"] in
  let r := run (makeChangeSet getRuleFilePath fromYAMLFilePaths Uri_parse
                  (Some document)) h in
  r.1.1 = value None
  ∧ validationCache r.1.2 !! "file:///work/a.md" = None
  ∧ ∃ t2,
      run (makeChangeSet getRuleFilePath fromYAMLFilePaths Uri_parse (Some document))
        r.1.2
      = (value None, r.1.2, t2)
      ∧ invocations t2
        = [("file:///work/a.md", "Use javascript, not Javascript.")].
Proof.
  intros h r. split; [vm_compute; reflexivity|].
  destruct (validation_cache_holds_engine_results getRuleFilePath fromYAMLFilePaths
              Uri_parse document h r.1.1 r.1.2 r.2) as (_ & _ & Hnull).
  - vm_compute. reflexivity.
  - apply Hnull; [vm_compute; discriminate|vm_compute; reflexivity].
Defined.

(** *** The further properties on the fixture *)

Lemma validation_leaves_no_stale_entry_witness :
  let h :=
    set_validationCache {[ "file:///work/a.md" := ChangeSetCache.mk 0 flagged ]}
      (configured ["quiet.yml"]) in
  let r := run (makeChangeSet getRuleFilePath fromYAMLFilePaths Uri_parse
                  (Some revised)) h in
  let h2 := (run (makeChangeSet getRuleFilePath fromYAMLFilePaths Uri_parse
                    (Some document)) (configured ["prh.yml"])).1.2 in
  validationCache r.1.2 !! "file:///work/a.md" = None
  ∧ ∃ entry,
      validationCache
        (run (makeChangeSet getRuleFilePath fromYAMLFilePaths Uri_parse
                (Some revised)) h2).1.2 !! "file:///work/a.md" = Some entry
      ∧ ChangeSetCache.version entry = 2.
Proof.
  intros h r h2. split; [vm_compute; reflexivity|].
  pose (r2 := run (makeChangeSet getRuleFilePath fromYAMLFilePaths Uri_parse
                     (Some revised)) h2).
  exists (ChangeSetCache.mk 2 flagged). split; [vm_compute; reflexivity|].
  apply (validation_leaves_no_stale_entry getRuleFilePath fromYAMLFilePaths
           Uri_parse revised h2 r2.1.1 r2.1.2 r2.2 (ChangeSetCache.mk 2 flagged)).
  all: vm_compute; reflexivity.
Defined.

Lemma new_version_is_validated_afresh_witness :
  let r := run (makeChangeSet getRuleFilePath fromYAMLFilePaths Uri_parse
                  (Some document)) (configured ["prh.yml"]) in
  ∃ result h'' t2,
    run (makeChangeSet getRuleFilePath fromYAMLFilePaths Uri_parse (Some revised))
      r.1.2
    = (value result, h'', t2)
    ∧ invocations t2 = [("file:///work/a.md", "Use JavaScript.")]
    ∧ constructions t2 = []
    ∧ validationCache h'' !! "file:///work/a.md" = ChangeSetCache.mk 2 <$> result.
Proof.
  intros r.
  apply (new_version_is_validated_afresh getRuleFilePath fromYAMLFilePaths
           Uri_parse document (configured ["prh.yml"]) flagged r.1.2 r.2 revised).
  - vm_compute. reflexivity.
  - vm_compute. discriminate.
  - reflexivity.
  - vm_compute. discriminate.
Defined.

Lemma one_engine_serves_all_documents_witness :
  let r := run (makeChangeSet getRuleFilePath fromYAMLFilePaths Uri_parse
                  (Some document)) (configured ["prh.yml"]) in
  constructions r.2 = [["prh.yml"]]
  ∧ constructions
      (run (makeChangeSet getRuleFilePath fromYAMLFilePaths Uri_parse (Some scratch))
         r.1.2).2 = [].
Proof.
  intros r. split; [vm_compute; reflexivity|].
  apply (one_engine_serves_all_documents getRuleFilePath fromYAMLFilePaths
           Uri_parse document (configured ["prh.yml"]) r.1.1 r.1.2 r.2
           (Some scratch)).
  - vm_compute. reflexivity.
  - vm_compute. reflexivity.
  - vm_compute. discriminate.
Defined.

Lemma diagnostics_one_per_correction_witness :
  let h := configured ["prh.yml"] in
  ∃ diagnostics t',
    (run (validateAndSendDiagnostics getRuleFilePath fromYAMLFilePaths Uri_parse
            document) h).2 = t'
    ∧ published t' = [("file:///work/a.md", diagnostics)]
    ∧ Forall2 (flags document) (ChangeSet.diffs flagged) diagnostics.
Proof.
  intros h.
  pose (r := run (makeChangeSet getRuleFilePath fromYAMLFilePaths Uri_parse
                    (Some document)) h).
  destruct (diagnostics_one_per_correction getRuleFilePath fromYAMLFilePaths
              Uri_parse document h (Some flagged) r.1.2 r.2)
    as (diagnostics & t' & Hrun & Hpublished & Hflags & _).
  - vm_compute. reflexivity.
  - exists diagnostics, t'. rewrite Hrun. split_and!; [reflexivity|done|done].
Defined.

Lemma offered_action_round_trip_witness :
  let h := configured ["prh.yml"] in
  let range := Range.mk (Position.mk 0 4) (Position.mk 0 14) in
  let request :=
    ExecuteCommandParams.mk "replace"
      (Some [arg_params (ReplaceCommandParams.mk "file:///work/a.md" 1
                           (TextEdit.mk range "JavaScript"))]) in
  let h' := (run (makeChangeSet getRuleFilePath fromYAMLFilePaths Uri_parse
                    (Some document)) h).1.2 in
  (∃ diff,
     diff ∈ ChangeSet.diffs flagged
     ∧ exact_span document range diff
     ∧ replacement diff "JavaScript"
     ∧ submitted
         (run (onExecuteCommand getRuleFilePath fromYAMLFilePaths Uri_parse request)
            h').2
       = [WorkspaceEdit.mk [
            TextDocumentEdit.mk "file:///work/a.md" 1
              [TextEdit.mk range "JavaScript"]]])
  ∧ submitted
      (run (onExecuteCommand getRuleFilePath fromYAMLFilePaths Uri_parse request)
         (set_documents [revised] h')).2 = [].
Proof.
  intros h range request h'.
  pose (params := CodeActionParams.mk "file:///work/a.md" range).
  pose (action :=
          Command.mk "→ JavaScript" "replace"
            [ReplaceCommandParams.mk "file:///work/a.md" 1
               (TextEdit.mk range "JavaScript")]).
  pose (r := run (onCodeAction getRuleFilePath fromYAMLFilePaths Uri_parse params) h).
  destruct (offered_action_round_trip getRuleFilePath fromYAMLFilePaths Uri_parse
              h params document [action] r.1.2 r.2 action)
    as [(result & diff & text & Hval & Hdiff & Hspan & Hrepl & Haction & Hsame)
        Hother].
  - vm_compute. reflexivity.
  - vm_compute. reflexivity.
  - constructor.
  - assert (result = Some flagged) as ->.
    { vm_compute in Hval. by injection Hval. }
    assert (text = "JavaScript") as ->.
    { unfold action in Haction. cbn in Haction. by injection Haction. }
    split.
    + exists diff. split_and!; [exact Hdiff|exact Hspan|exact Hrepl|].
      assert (h' = r.1.2) as -> by (vm_compute; reflexivity).
      unfold request. cbn in Hsame. by rewrite Hsame.
    + apply (Hother [revised] revised); [vm_compute; reflexivity|].
      vm_compute. discriminate.
Defined.

Lemma closed_document_is_not_guarded_witness :
  let h := configured ["prh.yml"] in
  let params :=
    CodeActionParams.mk "file:///work/b.md"
      (Range.mk (Position.mk 0 4) (Position.mk 0 14)) in
  let args :=
    ExecuteCommandParams.mk "applyAllQuickFixes"
      (Some [arg_string "file:///work/b.md"]) in
  ∃ e,
    run (onCodeAction getRuleFilePath fromYAMLFilePaths Uri_parse params) h
    = (exception e, h, [])
    ∧ run (executeApplyAllQuickFixes getRuleFilePath fromYAMLFilePaths Uri_parse
             args) h
      = (exception e, h, []).
Proof.
  intros h params args.
  apply (closed_document_is_not_guarded getRuleFilePath fromYAMLFilePaths
           Uri_parse h params args "file:///work/b.md" []).
  - reflexivity.
  - reflexivity.
  - discriminate.
  - vm_compute. reflexivity.
  - reflexivity.
  - reflexivity.
Defined.

Lemma quick_fixes_edit_the_flagged_ranges_witness :
  let h := configured ["prh.yml"] in
  let args :=
    ExecuteCommandParams.mk "applyAllQuickFixes"
      (Some [arg_string "file:///work/a.md"]) in
  ∃ diagnostics edits,
    published
      (run (validateAndSendDiagnostics getRuleFilePath fromYAMLFilePaths Uri_parse
              document) h).2
    = [("file:///work/a.md", diagnostics)]
    ∧ submitted
        (run (executeApplyAllQuickFixes getRuleFilePath fromYAMLFilePaths Uri_parse
                args) h).2
      = [WorkspaceEdit.mk [TextDocumentEdit.mk "file:///work/a.md" 1 edits]]
    ∧ length edits = 2%nat
    ∧ map TextEdit.range edits = map Diagnostic.range diagnostics.
Proof.
  intros h args.
  pose (r := run (makeChangeSet getRuleFilePath fromYAMLFilePaths Uri_parse
                    (Some document)) h).
  apply (quick_fixes_edit_the_flagged_ranges getRuleFilePath fromYAMLFilePaths
           Uri_parse h args "file:///work/a.md" [] document flagged r.1.2 r.2).
  - reflexivity.
  - discriminate.
  - vm_compute. reflexivity.
  - vm_compute. reflexivity.
Defined.

Lemma unmatched_watched_files_are_ignored_witness :
  let h := (run (makeChangeSet getRuleFilePath fromYAMLFilePaths Uri_parse
                   (Some document)) (configured ["prh.yml"])).1.2 in
  let change := DidChangeWatchedFilesParams.mk ["file:///work/notes.txt"] in
  engineCache h = {[ "prh.yml" := Some engine ]}
  ∧ run (onDidChangeWatchedFiles existsSync getRuleFilePath fromYAMLFilePaths
           Uri_parse change) h
    = (value tt, h, [console_log (log_onDidChangeWatchedFiles change)]).
Proof.
  intros h change.
  assert (engineCache h = {[ "prh.yml" := Some engine ]}) as Hcache
    by (vm_compute; reflexivity).
  split; [exact Hcache|].
  apply (unmatched_watched_files_are_ignored existsSync getRuleFilePath
           fromYAMLFilePaths Uri_parse change h).
  intros change_uri key rulePath Hchange [e Hkey] Hrule.
  apply list_elem_of_singleton in Hchange as ->.
  rewrite Hcache in Hkey. apply lookup_singleton_Some in Hkey as [<- _].
  apply list_elem_of_singleton in Hrule as ->.
  vm_compute. reflexivity.
Defined.

Lemma caches_are_empty_while_off_witness :
  let on := PrhSettings.mk (Some true) (Some ["prh.yml"]) in
  let off := PrhSettings.mk (Some false) (Some ["prh.yml"]) in
  let h1 :=
    (dispatch existsSync getRuleFilePath fromYAMLFilePaths Uri_parse
       (didChangeConfiguration on) (new_Handler [document])).1 in
  let h2 :=
    (dispatch existsSync getRuleFilePath fromYAMLFilePaths Uri_parse
       (didChangeConfiguration off) h1).1 in
  engineCache h1 = {[ "prh.yml" := Some engine ]}
  ∧ engineCache h2 = ∅ ∧ validationCache h2 = ∅.
Proof.
  intros on off h1 h2. split; [vm_compute; reflexivity|].
  apply (caches_are_empty_while_off existsSync getRuleFilePath fromYAMLFilePaths
           Uri_parse h2).
  - exists [document]. eapply rtc_l; [|apply rtc_once]; constructor.
  - left. vm_compute. reflexivity.
Defined.

Lemma cached_engines_are_built_from_their_key_witness :
  let on := PrhSettings.mk (Some true) (Some ["prh.yml"]) in
  let h1 :=
    (dispatch existsSync getRuleFilePath fromYAMLFilePaths Uri_parse
       (didChangeConfiguration on) (new_Handler [document])).1 in
  ∃ paths,
    "prh.yml" = String.concat "|" paths ∧ fromYAMLFilePaths paths = built engine.
Proof.
  intros on h1.
  apply (cached_engines_are_built_from_their_key existsSync getRuleFilePath
           fromYAMLFilePaths Uri_parse h1 "prh.yml" engine).
  - exists [document]. apply rtc_once. constructor.
  - vm_compute. reflexivity.
Defined.

Lemma only_configuration_moves_an_off_handler_witness :
  let on := PrhSettings.mk (Some true) (Some ["prh.yml"]) in
  let off := PrhSettings.mk (Some false) (Some ["prh.yml"]) in
  let h1 :=
    (dispatch existsSync getRuleFilePath fromYAMLFilePaths Uri_parse
       (didChangeConfiguration on) (new_Handler [document])).1 in
  let h2 :=
    (dispatch existsSync getRuleFilePath fromYAMLFilePaths Uri_parse
       (didChangeConfiguration off) h1).1 in
  let r :=
    dispatch existsSync getRuleFilePath fromYAMLFilePaths Uri_parse
      (didChangeWatchedFiles (DidChangeWatchedFilesParams.mk ["file:///work/prh.yml"]))
      h2 in
  r.1 = h2
  ∧ invocations r.2 = [] ∧ constructions r.2 = [] ∧ shown r.2 = []
  ∧ published r.2 = [].
Proof.
  intros on off h1 h2 r.
  apply (only_configuration_moves_an_off_handler existsSync getRuleFilePath
           fromYAMLFilePaths Uri_parse
           (didChangeWatchedFiles
              (DidChangeWatchedFilesParams.mk ["file:///work/prh.yml"])) h2).
  - exists [document]. eapply rtc_l; [|apply rtc_once]; constructor.
  - left. vm_compute. reflexivity.
  - discriminate.
Defined.

Lemma configuration_that_switches_off_witness :
  let h := (run (makeChangeSet getRuleFilePath fromYAMLFilePaths Uri_parse
                   (Some document)) (configured ["prh.yml"])).1.2 in
  let settings := PrhSettings.mk (Some true) (Some ["prh.yml"; "missing.yml"]) in
  let r := run (onDidChangeConfiguration existsSync getRuleFilePath
                  fromYAMLFilePaths Uri_parse settings) h in
  r.1.1 = value tt
  ∧ engineCache r.1.2 = ∅ ∧ validationCache r.1.2 = ∅
  ∧ invocations r.2 = [] ∧ constructions r.2 = []
  ∧ ∀ uri diagnostics,
      (uri, diagnostics) ∈ published r.2
      ↔ diagnostics = [] ∧ ∃ d, d ∈ documents h ∧ TextDocument.uri d = uri.
Proof.
  intros h settings.
  apply (configuration_that_switches_off existsSync getRuleFilePath
           fromYAMLFilePaths Uri_parse settings h).
  right. exists "missing.yml". split; [|reflexivity].
  right. left.
Defined.

Lemma rule_files_of_an_engine_are_watched_witness :
  let r := run (makeChangeSet getRuleFilePath fromYAMLFilePaths Uri_parse
                  (Some document)) (configured ["prh.yml"]) in
  let change := DidChangeWatchedFilesParams.mk ["file:///work/prh.yml"] in
  ∃ matched h1 t1,
    matched_line matched
    ∧ run (checkConfig existsSync) r.1.2 = (value tt, h1, t1)
    ∧ engineCache h1 = ∅ ∧ validationCache h1 = ∅
    ∧ run (onDidChangeWatchedFiles existsSync getRuleFilePath fromYAMLFilePaths
             Uri_parse change) r.1.2
      = after (console_log (log_onDidChangeWatchedFiles change) :: matched ++ t1)
          (run (for_of (documents h1)
                  (validateAndSendDiagnostics getRuleFilePath fromYAMLFilePaths
                     Uri_parse)) h1).
Proof.
  intros r change.
  apply (rule_files_of_an_engine_are_watched existsSync getRuleFilePath
           fromYAMLFilePaths Uri_parse document (configured ["prh.yml"])
           r.1.1 r.1.2 r.2 ["prh.yml"] [] change "file:///work/prh.yml" "prh.yml").
  - vm_compute. reflexivity.
  - vm_compute. discriminate.
  - vm_compute. reflexivity.
  - repeat constructor.
  - left.
  - left.
  - vm_compute. reflexivity.
Defined.

Lemma configuration_change_publishes_in_order_witness :
  let settings := PrhSettings.mk (Some true) (Some ["prh.yml"]) in
  let r := run (onDidChangeConfiguration existsSync getRuleFilePath
                  fromYAMLFilePaths Uri_parse settings)
             (new_Handler [document; scratch]) in
  (published r.2).*1 = ["file:///work/a.md"; "untitled:Untitled-1"].
Proof.
  intros settings r.
  destruct (configuration_change_publishes_in_order existsSync getRuleFilePath
              fromYAMLFilePaths Uri_parse settings
              (new_Handler [document; scratch])) as (_ & Hall & _).
  - repeat constructor.
  - apply Hall. vm_compute. reflexivity.
Defined.

(** *** The earlier version on its fixture *)

#[local] Existing Instance LegacyFixture.library.

Lemma legacy_second_validation_witness :
  let r := Legacy.run (Legacy.documentValidate (Some document))
             LegacyFixture.loaded in
  r.1.1 = value (Some LegacyFixture.flagged)
  ∧ Legacy.run (Legacy.documentValidate (Some document)) r.1.2
    = (value (Some LegacyFixture.flagged), r.1.2, []).
Proof.
  intros r.
  destruct (legacy_second_validation document LegacyFixture.loaded
              LegacyFixture.engine) as (result & Hresult & _ & Hsecond).
  - reflexivity.
  - reflexivity.
  - assert (result = Some LegacyFixture.flagged) as ->.
    { vm_compute in Hresult. by injection Hresult. }
    split; [vm_compute; reflexivity|exact Hsecond].
Defined.

Lemma legacy_switching_off_publishes_nothing_witness :
  let settings := Legacy.PrhSettings.mk (Some false) None in
  let h' :=
    Legacy.mkHandler (Some LegacyFixture.engine) false (Some "prh.yml")
      (Some "file:///work") ∅ [document; scratch] in
  Legacy.run (Legacy.onDidChangeConfiguration settings) LegacyFixture.loaded
  = (value tt, h',
     [Legacy.console_log (Legacy.log_onDidChangeConfiguration settings);
      Legacy.console_log (Legacy.log_loadConfig (Some "prh.yml"));
      Legacy.call_fromYAMLFilePath (Some "prh.yml")])
  ∧ ∀ d, Legacy.run (Legacy.onDidChangeContent d) h' = (value tt, h', []).
Proof.
  intros settings h'.
  apply (legacy_switching_off_publishes_nothing settings LegacyFixture.loaded
           LegacyFixture.engine).
  - reflexivity.
  - vm_compute. reflexivity.
Defined.

Lemma legacy_failed_load_keeps_the_engine_witness :
  let settings := Legacy.PrhSettings.mk (Some true) (Some "broken.yml") in
  let r := Legacy.run (Legacy.onDidChangeConfiguration settings)
             LegacyFixture.loaded in
  r.1.1 = exception (an_Error "ENOENT: no such file or directory")
  ∧ Legacy.engine r.1.2 = Some LegacyFixture.engine
  ∧ (Legacy.run (Legacy.documentValidate (Some document)) r.1.2).1.1
    = value (Some LegacyFixture.flagged).
Proof.
  intros settings r.
  destruct (legacy_failed_load_keeps_the_engine settings LegacyFixture.loaded
              (an_Error "ENOENT: no such file or directory"))
    as (Hthrown & Hengine & _ & _ & _ & _ & Hnext).
  - vm_compute. reflexivity.
  - split_and!; [exact Hthrown|exact Hengine|].
    destruct (Hnext LegacyFixture.engine document) as [Hresult _];
      [reflexivity..|].
    exact Hresult.
Defined.

Lemma legacy_reload_reports_flagged_documents_witness :
  let settings := Legacy.PrhSettings.mk (Some true) None in
  ∃ h' t,
    Legacy.run (Legacy.onDidChangeConfiguration settings) LegacyFixture.loaded
    = (value tt, h', t)
    ∧ Legacy.engine h' = Some LegacyFixture.engine
    ∧ Legacy.invocations t
      = (λ d, (TextDocument.uri d, TextDocument.getText d)) <$> [document; scratch]
    ∧ Legacy.published t
      = omap (Legacy.report LegacyFixture.engine) [document; scratch].
Proof.
  intros settings.
  apply (legacy_reload_reports_flagged_documents settings LegacyFixture.loaded
           LegacyFixture.engine).
  - reflexivity.
  - vm_compute. reflexivity.
  - cbn. apply NoDup_cons. split; [|apply NoDup_singleton].
    intros Hin%list_elem_of_singleton. discriminate.
Defined.
